(** * pre_commit.util: process runners, pty session and filesystem helpers

    A shallow embedding of [pre_commit/util.py].  Python statements become
    computations in a small state-and-exception monad over a [World] that
    holds the operating system (an abstract [Platform]), the store of [Pty]
    objects, and a log of every operating-system call performed, in order.
    The functions of [util.py] keep their names. *)

From Stdlib Require Import ZArith List Strings.Byte Ascii String Lia Bool.
From Stdlib Require Import DecimalString DecimalZ.
From stdpp Require Import base option gmap strings list.

Local Open Scope string_scope.
Local Open Scope list_scope.

(** ** Values *)

(** Python [bytes]. *)
Definition bytes := list byte.

(** The values that travel in [**kwargs] to [subprocess.Popen]: [None],
    integers (descriptors and the [subprocess] sentinels), open file objects
    and strings (for pass-through keys such as [cwd]). *)
Inductive pyval :=
| PNone
| PInt (z : Z)
| PFile (h : nat)
| PStr (s : string).

#[global] Instance pyval_eq_dec : EqDecision pyval.
Proof. solve_decision. Defined.

(** [subprocess.PIPE], [subprocess.STDOUT]. *)
Definition PIPE : pyval := PInt (-1).
Definition STDOUT : pyval := PInt (-2).

(** [errno] and [stat] constants (the values of CPython's modules). *)
Definition EIO : Z := 5.
Definition EACCES : Z := 13.
Definition S_IXUSR : Z := 64.   (* 0o100 *)
Definition S_IXGRP : Z := 8.    (* 0o010 *)
Definition S_IXOTH : Z := 1.    (* 0o001 *)
Definition S_IWUSR : Z := 128.  (* 0o200 *)

(** The triple every runner returns: [(returncode, stdout, stderr)].  A
    stream that was not captured is [None]. *)
Definition result : Type := Z * option bytes * option bytes.

(** ** Exceptions *)

(** [class CalledProcessError(RuntimeError)]: the five attributes assigned by
    [__init__], and the [args] tuple handed to [super().__init__]. *)
Record CalledProcessError := {
  args : Z * list string * Z * option bytes * option bytes;
  returncode : Z;
  cmd : list string;
  expected_returncode : Z;
  stdout : option bytes;
  stderr : option bytes;
}.

(** [CalledProcessError.__init__(self, returncode, cmd, expected_returncode,
    stdout, stderr)]. *)
Definition CalledProcessError__init__
    (returncode : Z) (cmd : list string) (expected_returncode : Z)
    (stdout stderr : option bytes) : CalledProcessError :=
  {| args := (returncode, cmd, expected_returncode, stdout, stderr);
     returncode := returncode;
     cmd := cmd;
     expected_returncode := expected_returncode;
     stdout := stdout;
     stderr := stderr |}.

Inductive exn :=
| ExCalledProcessError (e : CalledProcessError)
| ExAssertionError
| ExKeyError (key : string)
| ExOSError (errno : Z)
| ExUnicodeDecodeError
| ExOther (name : string).  (* any other BaseException of a caller's scope *)

(** ** The operating system *)

(** Result of a system call: a value, or an [OSError] with its [errno]. *)
Inductive osres (A : Type) :=
| OsOk (a : A)
| OsErr (errno : Z).
Arguments OsOk {A} a.
Arguments OsErr {A} errno.

(** What [parse_shebang.normalize_cmd] does with a command: it returns the
    normalized command, or raises [ExecutableNotFoundError], whose
    [to_output()] is the triple kept here. *)
Inductive resolution :=
| Resolved (cmd : list string)
| ExecutableNotFound (to_output : result).

(** The [attrs] list of [termios.tcgetattr]: index 1 is the output flags. *)
Record termios_attrs := {
  iflag : Z; oflag : Z; cflag : Z; lflag : Z;
  ispeed : Z; ospeed : Z; cc : list Z;
}.

(** The functions [shutil.rmtree] can report to its [onerror] handler. *)
Inductive rmfunc :=
| os_rmdir | os_remove | os_unlink
| os_scandir | os_lstat | os_open | os_path_islink.

#[global] Instance rmfunc_eq_dec : EqDecision rmfunc.
Proof. solve_decision. Defined.

(** Everything [util.py] takes from outside itself: the resolver of
    [pre_commit.parse_shebang], [subprocess], [os], [termios], and the walk
    of [shutil.rmtree].  [Env] is the state of the machine.  A call that
    can fail returns an [osres]; closing a descriptor the module owns,
    setting terminal attributes on the pty it has just opened, and waiting
    for the child it has spawned are taken to succeed. *)
Class Platform := {
  Env : Type;
  (* pre_commit.parse_shebang *)
  normalize_cmd : list string -> Env -> resolution;
  (* subprocess *)
  Popen : list string -> gmap string pyval -> Env -> osres nat * Env;
  communicate : nat -> Env -> (option bytes * option bytes) * Env;
  proc_returncode : nat -> Env -> Z;
  wait : nat -> Env -> Z * Env;
  (* open(os.devnull) and the file object's close *)
  open_devnull : Env -> osres nat * Env;
  file_close : nat -> Env -> Env;
  (* os.openpty, termios, os.close, os.read *)
  openpty : Env -> osres (Z * Z) * Env;
  tcgetattr : Z -> Env -> termios_attrs;
  tcsetattr : Z -> termios_attrs -> Env -> Env;
  ONLCR : Z;
  OPOST : Z;
  os_close : Z -> Env -> Env;
  os_read : Z -> Z -> Env -> osres bytes * Env;
  (* os.path, os.stat, os.chmod *)
  os_path_exists : string -> Env -> bool;
  os_path_dirname : string -> string;
  os_stat : string -> Env -> osres Z;
  os_chmod : string -> Z -> Env -> osres unit * Env;
  (* calling one of the functions shutil.rmtree uses, on a path *)
  os_call : rmfunc -> string -> Env -> osres unit * Env;
  (* the operations shutil.rmtree attempts on a tree, in order *)
  rmtree_plan : string -> Env -> list (rmfunc * string);
}.

(** One entry of the log per call that reaches the operating system. *)
Inductive event :=
| EvNormalize (cmd : list string)
| EvPopen (cmd : list string) (kwargs : gmap string pyval)
| EvCommunicate (proc : nat)
| EvWait (proc : nat)
| EvOpenDevnull
| EvFileClose (h : nat)
| EvOpenpty
| EvTcgetattr (fd : Z)
| EvTcsetattr (fd : Z) (attrs : termios_attrs)
| EvClose (fd : Z)
| EvRead (fd n : Z)
| EvExists (path : string)
| EvStat (path : string)
| EvChmod (path : string) (mode : Z)
| EvCall (f : rmfunc) (path : string).

(** [class Pty]: the two descriptors, [None] once closed. *)
Record Pty := { r : option Z; w : option Z }.

(** How a computation ends: it returns, it raises, or the model stops
    ([Bottom]: a loop bound ran out, or a reference to no object).  Python
    has no counterpart of [Bottom], and no handler catches it. *)
Inductive outcome (A : Type) :=
| Ret (a : A)
| Raise (e : exn)
| Bottom.
Arguments Ret {A} a.
Arguments Raise {A} e.
Arguments Bottom {A}.

(** ** UTF-8, as [bytes.decode()] reads it (strict) *)

(** Python [str]: the sequence of its code points. *)
Definition text := list Z.

Definition byte_val (b : byte) : Z := Z.of_N (Byte.to_N b).

Definition in_range (lo hi v : Z) : bool := (lo <=? v)%Z && (v <=? hi)%Z.

(** Continuation byte [10xxxxxx]. *)
Definition is_cont (v : Z) : bool := in_range 128 191 v.

Definition low6 (v : Z) : Z := Z.land v 63.

(** The well-formed byte sequences of the Unicode standard: no overlong
    encoding, no surrogate, nothing above U+10FFFF. *)
Fixpoint decode_utf8 (bs : bytes) : option text :=
  match bs with
  | [] => Some []
  | b0 :: t0 =>
    let v0 := byte_val b0 in
    if (v0 <? 128)%Z then cons v0 <$> decode_utf8 t0
    else
      match t0 with
      | [] => None
      | b1 :: t1 =>
        let v1 := byte_val b1 in
        if in_range 194 223 v0 then
          if is_cont v1
          then cons (Z.lor (Z.shiftl (Z.land v0 31) 6) (low6 v1)) <$> decode_utf8 t1
          else None
        else
          match t1 with
          | [] => None
          | b2 :: t2 =>
            let v2 := byte_val b2 in
            if in_range 224 239 v0 then
              if in_range (if (v0 =? 224)%Z then 160 else 128)
                          (if (v0 =? 237)%Z then 159 else 191) v1
                 && is_cont v2
              then cons (Z.lor (Z.shiftl (Z.land v0 15) 12)
                          (Z.lor (Z.shiftl (low6 v1) 6) (low6 v2)))
                     <$> decode_utf8 t2
              else None
            else
              match t2 with
              | [] => None
              | b3 :: t3 =>
                let v3 := byte_val b3 in
                if in_range 240 244 v0
                   && in_range (if (v0 =? 240)%Z then 144 else 128)
                               (if (v0 =? 244)%Z then 143 else 191) v1
                   && is_cont v2 && is_cont v3
                then cons (Z.lor (Z.shiftl (Z.land v0 7) 18)
                            (Z.lor (Z.shiftl (low6 v1) 12)
                              (Z.lor (Z.shiftl (low6 v2) 6) (low6 v3))))
                       <$> decode_utf8 t3
                else None
              end
          end
      end
  end.

(** ** Dictionaries of keyword arguments *)

(** [dict.setdefault(k, v)]: a key that is present keeps its value. *)
Definition setdefault (k : string) (v : pyval) (kwargs : gmap string pyval)
  : gmap string pyval :=
  match kwargs !! k with
  | Some _ => kwargs
  | None => <[k := v]> kwargs
  end.

(** [_setdefault_kwargs(kwargs)]: the loop over the three stream names. *)
Definition _setdefault_kwargs (kwargs : gmap string pyval) : gmap string pyval :=
  foldl (fun kw arg => setdefault arg PIPE kw) kwargs ["stdin"; "stdout"; "stderr"].

(** A descriptor attribute ([Optional[int]]) as a keyword value. *)
Definition pyval_of_fd (fd : option Z) : pyval :=
  match fd with
  | Some n => PInt n
  | None => PNone
  end.

Section Util.
Context `{P : Platform}.

Record World := {
  log : list event;
  env : Env;
  ptys : list Pty;   (* the Pty objects, addressed by position *)
}.

(** ** The monad *)

Definition M (A : Type) : Type := World -> outcome A * World.

Definition ret {A} (a : A) : M A := fun s => (Ret a, s).
Definition raise {A} (e : exn) : M A := fun s => (Raise e, s).
Definition bottom {A} : M A := fun s => (Bottom, s).

Definition bind {A B} (m : M A) (k : A -> M B) : M B :=
  fun s =>
    match m s with
    | (Ret a, s') => k a s'
    | (Raise e, s') => (Raise e, s')
    | (Bottom, s') => (Bottom, s')
    end.

#[global] Instance M_ret : MRet M := @ret.
#[global] Instance M_bind : MBind M := fun A B k m => bind m k.

(** [try: m] / [except BaseException as e: h e]. *)
Definition try_except {A} (m : M A) (h : exn -> M A) : M A :=
  fun s =>
    match m s with
    | (Raise e, s') => h e s'
    | other => other
    end.

(** [assert b]. *)
Definition assert (b : bool) : M unit :=
  if b then ret tt else raise ExAssertionError.

(** [with enter as x: body x]; [exit] is the manager's [__exit__], which
    returns [None] here, so an exception of the body goes on after it. *)
Definition with_ {R A} (enter : M R) (exit : R -> M unit) (body : R -> M A) : M A :=
  x ← enter;
  (fun s =>
     match body x s with
     | (Ret a, s') => (exit x;; ret a) s'
     | (Raise e, s') => (exit x;; raise e) s'
     | (Bottom, s') => (Bottom, s')
     end) : M A.

(** ** Calls into the platform, each one logged *)

Definition record (ev : event) (e : Env) (s : World) : World :=
  {| log := log s ++ [ev]; env := e; ptys := ptys s |}.

(** A call that raises [OSError] when it fails. *)
Definition syscall {A} (ev : event) (f : Env -> osres A * Env) : M A :=
  fun s =>
    match f (env s) with
    | (OsOk a, e) => (Ret a, record ev e s)
    | (OsErr n, e) => (Raise (ExOSError n), record ev e s)
    end.

(** A call that always returns. *)
Definition call {A} (ev : event) (f : Env -> A * Env) : M A :=
  fun s => let '(a, e) := f (env s) in (Ret a, record ev e s).

Definition normalize_cmd_m (cmd : list string) : M resolution :=
  call (EvNormalize cmd) (fun e => (normalize_cmd cmd e, e)).
Definition Popen_m (cmd : list string) (kwargs : gmap string pyval) : M nat :=
  syscall (EvPopen cmd kwargs) (Popen cmd kwargs).
Definition communicate_m (proc : nat) : M (option bytes * option bytes) :=
  call (EvCommunicate proc) (communicate proc).
Definition proc_returncode_m (proc : nat) : M Z :=
  fun s => (Ret (proc_returncode proc (env s)), s).
Definition wait_m (proc : nat) : M Z :=
  call (EvWait proc) (wait proc).
Definition open_devnull_m : M nat :=
  syscall EvOpenDevnull open_devnull.
Definition file_close_m (h : nat) : M unit :=
  call (EvFileClose h) (fun e => (tt, file_close h e)).
Definition openpty_m : M (Z * Z) :=
  syscall EvOpenpty openpty.
Definition tcgetattr_m (fd : Z) : M termios_attrs :=
  call (EvTcgetattr fd) (fun e => (tcgetattr fd e, e)).
Definition tcsetattr_m (fd : Z) (attrs : termios_attrs) : M unit :=
  call (EvTcsetattr fd attrs) (fun e => (tt, tcsetattr fd attrs e)).
Definition os_close_m (fd : Z) : M unit :=
  call (EvClose fd) (fun e => (tt, os_close fd e)).
Definition os_read_m (fd n : Z) : M bytes :=
  syscall (EvRead fd n) (os_read fd n).
Definition os_path_exists_m (path : string) : M bool :=
  call (EvExists path) (fun e => (os_path_exists path e, e)).
Definition os_stat_m (path : string) : M Z :=
  syscall (EvStat path) (fun e => (os_stat path e, e)).
Definition os_chmod_m (path : string) (mode : Z) : M unit :=
  syscall (EvChmod path mode) (os_chmod path mode).
Definition os_call_m (f : rmfunc) (path : string) : M unit :=
  syscall (EvCall f path) (os_call f path).

(** ** [clean_path_on_failure], [rmtree], [make_executable] *)

(** [handle_remove_readonly(func, path, exc)], the [onerror] callback of
    [rmtree]; [exc] is the exception [shutil.rmtree] caught, which the bare
    [raise] sends on. *)
Definition handle_remove_readonly (func : rmfunc) (path : string) (exc : exn)
  : M unit :=
  match exc with
  | ExOSError errno =>
    if bool_decide (func ∈ [os_rmdir; os_remove; os_unlink])
       && (errno =? EACCES)%Z
    then
      foldr (fun p rest =>
               mode ← os_stat_m p;
               os_chmod_m p (Z.lor mode S_IWUSR);;
               rest)
            (ret tt) [path; os_path_dirname path];;
      os_call_m func path
    else raise exc
  | _ => raise exc
  end.

(** The walk of [shutil.rmtree(path, ignore_errors=False, onerror=...)]:
    each operation is attempted in turn; when one raises [OSError] the
    callback gets the function, the path and the exception, and the walk
    goes on after the callback returns.  What the callback raises is not
    caught. *)
Fixpoint shutil_walk (onerror : rmfunc -> string -> exn -> M unit)
    (plan : list (rmfunc * string)) : M unit :=
  match plan with
  | [] => ret tt
  | (f, p) :: rest =>
    try_except (os_call_m f p)
      (fun e => match e with
                | ExOSError _ => onerror f p e
                | _ => raise e
                end);;
    shutil_walk onerror rest
  end.

Definition shutil_rmtree (path : string)
    (onerror : rmfunc -> string -> exn -> M unit) : M unit :=
  fun s => shutil_walk onerror (rmtree_plan path (env s)) s.

(** [rmtree(path)]. *)
Definition rmtree (path : string) : M unit :=
  shutil_rmtree path handle_remove_readonly.

(** [with clean_path_on_failure(path): body].  The generator yields at
    once; an exception of the body is thrown in at the [yield]. *)
Definition clean_path_on_failure {A} (path : string) (body : M A) : M A :=
  try_except body
    (fun e =>
       present ← os_path_exists_m path;
       (if present : bool then rmtree path else ret tt);;
       raise e).

(** [make_executable(filename)]. *)
Definition make_executable (filename : string) : M unit :=
  original_mode ← os_stat_m filename;
  let new_mode := Z.lor (Z.lor (Z.lor original_mode S_IXUSR) S_IXGRP) S_IXOTH in
  os_chmod_m filename new_mode.

(** ** [cmd_output_b], [cmd_output] *)

(** The default of the keyword-only parameter [retcode] of the runners:
    what a caller that leaves [retcode] out passes. *)
Definition retcode_default : option Z := Some 0%Z.

(** [cmd_output_b]: [cmd] is the tuple of positional arguments, [retcode]
    the keyword-only parameter, [kwargs] the other keywords.  The name
    [cmd] is bound again by the resolver's result, as in the source. *)
Definition cmd_output_b (cmd : list string) (retcode : option Z)
    (kwargs : gmap string pyval) : M result :=
  let kwargs := _setdefault_kwargs kwargs in
  resolved ← normalize_cmd_m cmd;
  '(cmd, (returncode, stdout_b, stderr_b)) ←
    match resolved with
    | ExecutableNotFound to_output => ret (cmd, to_output)
    | Resolved cmd =>
      proc ← Popen_m cmd kwargs;
      '(stdout_b, stderr_b) ← communicate_m proc;
      returncode ← proc_returncode_m proc;
      ret (cmd, (returncode, stdout_b, stderr_b))
    end;
  match retcode with
  | Some expected =>
    if negb (expected =? returncode)%Z
    then raise (ExCalledProcessError
                  (CalledProcessError__init__
                     returncode cmd expected stdout_b stderr_b))
    else ret (returncode, stdout_b, stderr_b)
  | None => ret (returncode, stdout_b, stderr_b)
  end.

(** [b.decode() if b is not None else None]. *)
Definition decode_if_present (b : option bytes) : M (option text) :=
  match b with
  | Some b =>
    match decode_utf8 b with
    | Some t => ret (Some t)
    | None => raise ExUnicodeDecodeError
    end
  | None => ret None
  end.

(** [cmd_output]; [retcode] is the entry of its [kwargs] that the call of
    [cmd_output_b] binds to that function's own parameter. *)
Definition cmd_output (cmd : list string) (retcode : option Z)
    (kwargs : gmap string pyval) : M (Z * option text * option text) :=
  '(returncode, stdout_b, stderr_b) ← cmd_output_b cmd retcode kwargs;
  stdout ← decode_if_present stdout_b;
  stderr ← decode_if_present stderr_b;
  ret (returncode, stdout, stderr).

(** ** [class Pty] and [cmd_output_p]

    The module defines both only where [os.name != 'nt']; elsewhere the
    name [cmd_output_p] is bound to [cmd_output_b].  These are the
    definitions of the first branch. *)

Definition get_pty (self : nat) : M Pty :=
  fun s =>
    match ptys s !! self with
    | Some p => (Ret p, s)
    | None => (Bottom, s)
    end.

Definition set_pty (self : nat) (f : Pty -> Pty) : M unit :=
  fun s =>
    match ptys s !! self with
    | Some p =>
      (Ret tt, {| log := log s; env := env s; ptys := <[self := f p]> (ptys s) |})
    | None => (Bottom, s)
    end.

(** [Pty()]: a new object with both attributes [None]. *)
Definition Pty__init__ : M nat :=
  fun s =>
    (Ret (length (ptys s)),
     {| log := log s; env := env s;
        ptys := ptys s ++ [{| r := None; w := None |}] |}).

(** [Pty.__enter__]. *)
Definition Pty__enter__ (self : nat) : M nat :=
  '(fd_r, fd_w) ← openpty_m;
  set_pty self (fun _ => {| r := Some fd_r; w := Some fd_w |});;
  attrs ← tcgetattr_m fd_r;
  let attrs :=
    {| iflag := iflag attrs;
       oflag := Z.land (oflag attrs) (Z.lnot (Z.lor ONLCR OPOST));
       cflag := cflag attrs; lflag := lflag attrs;
       ispeed := ispeed attrs; ospeed := ospeed attrs; cc := cc attrs |} in
  tcsetattr_m fd_r attrs;;
  ret self.

(** [Pty.close_w]. *)
Definition close_w (self : nat) : M unit :=
  p ← get_pty self;
  match w p with
  | Some fd =>
    os_close_m fd;;
    set_pty self (fun p => {| r := r p; w := None |})
  | None => ret tt
  end.

(** [Pty.close_r]. *)
Definition close_r (self : nat) : M unit :=
  p ← get_pty self;
  match r p with
  | Some fd =>
    os_close_m fd;;
    set_pty self (fun p => {| r := None; w := w p |})
  | None => raise ExAssertionError
  end.

(** [Pty.__exit__]. *)
Definition Pty__exit__ (self : nat) : M unit :=
  close_w self;;
  close_r self.

(** The [while True:] loop of [cmd_output_p]; [fuel] bounds the number of
    rounds. *)
Fixpoint read_loop (fuel : nat) (fd : Z) (buf : bytes) : M bytes :=
  match fuel with
  | O => bottom
  | S fuel =>
    '(bts, buf) ←
      try_except
        (bts ← os_read_m fd 4096;
         ret (bts, buf ++ bts))
        (fun e =>
           match e with
           | ExOSError errno =>
             if (errno =? EIO)%Z then ret ([], buf) else raise e
           | _ => raise e
           end);
    match bts with
    | [] => ret buf
    | _ :: _ => read_loop fuel fd buf
    end
  end.

(** [cmd_output_p]; [fuel] bounds the rounds of its reading loop. *)
Definition cmd_output_p (fuel : nat) (cmd : list string) (retcode : option Z)
    (kwargs : gmap string pyval) : M result :=
  assert (bool_decide (retcode = None));;
  stderr_arg ←
    match kwargs !! "stderr" with
    | Some v => ret v
    | None => raise (ExKeyError "stderr")
    end;
  assert (bool_decide (stderr_arg = STDOUT));;
  let kwargs := _setdefault_kwargs kwargs in
  resolved ← normalize_cmd_m cmd;
  match resolved with
  | ExecutableNotFound to_output => ret to_output
  | Resolved cmd =>
    '(proc, buf) ←
      with_ open_devnull_m file_close_m (fun devnull =>
      with_ (self ← Pty__init__; Pty__enter__ self) Pty__exit__ (fun pty =>
        p ← get_pty pty;
        match r p with
        | None => raise ExAssertionError
        | Some fd_r =>
          let kwargs :=
            <["stderr" := pyval_of_fd (w p)]>
              (<["stdout" := pyval_of_fd (w p)]>
                 (<["stdin" := PFile devnull]> kwargs)) in
          proc ← Popen_m cmd kwargs;
          close_w pty;;
          buf ← read_loop fuel fd_r [];
          ret (proc, buf)
        end));
    returncode ← wait_m proc;
    ret (returncode, Some buf, None)
  end.

End Util.

(** ** Words for what the platform does *)

Section Platform_behaviour.
Context `{P : Platform}.

(** [drains fd e chunks last e']: from [e], successive reads of 4096 bytes
    on [fd] give the non-empty [chunks], then the read [last], which is
    empty or fails; the machine is then [e']. *)
Inductive drains (fd : Z) : Env -> list bytes -> osres bytes -> Env -> Prop :=
| drains_eof e e' :
    os_read fd 4096 e = (OsOk [], e') ->
    drains fd e [] (OsOk []) e'
| drains_error e n e' :
    os_read fd 4096 e = (OsErr n, e') ->
    drains fd e [] (OsErr n) e'
| drains_chunk e c cs e1 chunks last e2 :
    os_read fd 4096 e = (OsOk (c :: cs), e1) ->
    drains fd e1 chunks last e2 ->
    drains fd e ((c :: cs) :: chunks) last e2.

(** [chmod(path, mode)] replaces the twelve permission bits of the file's
    [st_mode] by those of [mode] and keeps the file type. *)
Definition chmod_sets_permission_bits : Prop :=
  forall path mode e old e',
    os_stat path e = OsOk old ->
    os_chmod path mode e = (OsOk tt, e') ->
    os_stat path e' = OsOk (Z.lor (Z.land old (Z.lnot 4095)) (Z.land mode 4095)).

End Platform_behaviour.

(** How the reading loop ends, from how the descriptor drains. *)
Definition drained (buf : bytes) (chunks : list bytes) (last : osres bytes)
  : outcome bytes :=
  match last with
  | OsOk _ => Ret (buf ++ concat chunks)
  | OsErr n =>
    if (n =? EIO)%Z then Ret (buf ++ concat chunks) else Raise (ExOSError n)
  end.

(** A stream of [cmd_output_b]'s result after [decode()], when it is
    present and valid UTF-8; an absent stream is absent; [None] when the
    bytes are not valid. *)
Definition utf8_text_of (stream : option bytes) : option (option text) :=
  match stream with
  | Some bs => Some <$> decode_utf8 bs
  | None => Some None
  end.

(** ** A small machine to run the functions on

    An instance of [Platform] that computes: a resolver with a table of
    known executables, processes whose output is fixed by their command, a
    pty whose reads follow a script, and a flat file table in which an entry
    without the owner-write bit cannot be deleted (the behaviour the
    docstring of [rmtree] names). *)
Module Sim.

Record machine := {
  files : list (string * Z);        (* path and st_mode, children first *)
  reads : list (osres bytes);       (* what the next reads of the pty give *)
  procs : list (list string);       (* commands spawned, by process id *)
  next_fd : Z;
}.

Definition ENOENT : Z := 2.

Definition b (s : string) : bytes := list_byte_of_string s.

(** Modelled from the spec: the Executable Resolver (the source's
    [parse_shebang.normalize_cmd] is not part of [util.py]).  A known
    command gets the path of its executable; any other command is not
    found, with the conventional exit code 1 and no stderr. *)
Definition resolve (cmd : list string) : resolution :=
  match cmd with
  | "echo" :: rest => Resolved ("/bin/echo" :: rest)
  | "false" :: rest => Resolved ("/bin/false" :: rest)
  | "/bin/echo" :: _ | "/bin/false" :: _ => Resolved cmd
  | exe :: _ =>
    ExecutableNotFound (1%Z, Some (b ("Executable `" ++ exe ++ "` not found")), None)
  | [] => ExecutableNotFound (1%Z, Some (b "Executable `` not found"), None)
  end.

Definition exit_code (cmd : list string) : Z :=
  match cmd with
  | "/bin/false" :: _ => 1%Z
  | _ => 0%Z
  end.

Definition output (cmd : list string) : bytes :=
  match cmd with
  | "/bin/echo" :: rest => b (String.concat " " rest ++ String (Ascii.ascii_of_nat 10) EmptyString)
  | _ => []
  end.

Definition spawn (cmd : list string) (kwargs : gmap string pyval) (m : machine)
  : osres nat * machine :=
  (OsOk (length (procs m)),
   {| files := files m; reads := reads m; procs := procs m ++ [cmd];
      next_fd := next_fd m |}).

Definition finish (proc : nat) (m : machine) : (option bytes * option bytes) * machine :=
  (Some (output (default [] (procs m !! proc))), Some [], m).

Definition read (fd n : Z) (m : machine) : osres bytes * machine :=
  match reads m with
  | [] => (OsOk [], m)
  | x :: rest =>
    (x, {| files := files m; reads := rest; procs := procs m; next_fd := next_fd m |})
  end.

Definition new_pty (m : machine) : osres (Z * Z) * machine :=
  (OsOk (next_fd m, (next_fd m + 1)%Z),
   {| files := files m; reads := reads m; procs := procs m;
      next_fd := (next_fd m + 2)%Z |}).

Fixpoint lookup_file (path : string) (fs : list (string * Z)) : option Z :=
  match fs with
  | [] => None
  | (p, mode) :: rest => if String.eqb p path then Some mode else lookup_file path rest
  end.

Definition stat_mode (path : string) (m : machine) : osres Z :=
  match lookup_file path (files m) with
  | Some mode => OsOk mode
  | None => OsErr ENOENT
  end.

Definition with_files (fs : list (string * Z)) (m : machine) : machine :=
  {| files := fs; reads := reads m; procs := procs m; next_fd := next_fd m |}.

(** [chmod] replaces the permission bits and keeps the file type. *)
Definition chmod (path : string) (mode : Z) (m : machine) : osres unit * machine :=
  match lookup_file path (files m) with
  | Some old =>
    let new := Z.lor (Z.land old (Z.lnot 4095)) (Z.land mode 4095) in
    (OsOk tt,
     with_files (map (fun e => if String.eqb (fst e) path then (fst e, new) else e)
                     (files m)) m)
  | None => (OsErr ENOENT, m)
  end.

Fixpoint drop_to_slash (l : list Ascii.ascii) : list Ascii.ascii :=
  match l with
  | [] => []
  | c :: rest => if Ascii.eqb c "/"%char then l else drop_to_slash rest
  end.

Fixpoint drop_slashes (l : list Ascii.ascii) : list Ascii.ascii :=
  match l with
  | [] => []
  | c :: rest => if Ascii.eqb c "/"%char then drop_slashes rest else l
  end.

(** [posixpath.dirname]. *)
Definition dirname (path : string) : string :=
  let head := drop_to_slash (rev (list_ascii_of_string path)) in
  match drop_slashes head with
  | [] => string_of_list_ascii (rev head)
  | stripped => string_of_list_ascii (rev stripped)
  end.

(** Deleting needs the owner-write bit on the entry itself. *)
Definition delete (path : string) (m : machine) : osres unit * machine :=
  match lookup_file path (files m) with
  | Some mode =>
    if Z.testbit mode 7
    then (OsOk tt,
          with_files (filter (fun e => negb (String.eqb (fst e) path)) (files m)) m)
    else (OsErr EACCES, m)
  | None => (OsErr ENOENT, m)
  end.

Definition apply (f : rmfunc) (path : string) (m : machine) : osres unit * machine :=
  match f with
  | os_rmdir | os_remove | os_unlink => delete path m
  | _ =>
    match lookup_file path (files m) with
    | Some _ => (OsOk tt, m)
    | None => (OsErr ENOENT, m)
    end
  end.

(** The walk scans the directory, deletes what is below it (bit 14 of the
    mode, [S_IFDIR], tells a directory from a file), then removes the
    directory itself. *)
Definition plan (path : string) (m : machine) : list (rmfunc * string) :=
  (os_scandir, path)
  :: map (fun e => (if Z.testbit (snd e) 14 then os_rmdir else os_unlink, fst e))
       (filter (fun e => String.prefix (path ++ "/") (fst e)) (files m))
  ++ [(os_rmdir, path)].

Definition platform : Platform := {|
  Env := machine;
  normalize_cmd := fun cmd _ => resolve cmd;
  Popen := spawn;
  communicate := finish;
  proc_returncode := fun proc m => exit_code (default [] (procs m !! proc));
  wait := fun proc m => (exit_code (default [] (procs m !! proc)), m);
  open_devnull := fun m => (OsOk 0, m);
  file_close := fun _ m => m;
  openpty := new_pty;
  tcgetattr := fun _ _ =>
    {| iflag := 0; oflag := 5; cflag := 0; lflag := 0;
       ispeed := 0; ospeed := 0; cc := [] |};
  tcsetattr := fun _ _ m => m;
  ONLCR := 4;
  OPOST := 1;
  os_close := fun _ m => m;
  os_read := read;
  os_path_exists := fun path m => bool_decide (is_Some (lookup_file path (files m)));
  os_path_dirname := dirname;
  os_stat := stat_mode;
  os_chmod := chmod;
  os_call := apply;
  rmtree_plan := plan;
|}.

(** A machine with a directory [/tmp/d] that holds a read-only file, a
    pty that delivers two chunks, and nothing spawned yet. *)
Definition boot : machine :=
  {| files := [("/tmp/d/ro", 33060%Z); ("/tmp/d", 16877%Z); ("/tmp", 17407%Z)];
     reads := [OsOk (b "a"); OsOk (b "b")];
     procs := [];
     next_fd := 3 |}.

(** What the resolver reports for the unknown executable [dne]. *)
Definition dne_output : option bytes := Some (b "Executable `dne` not found").

Definition world0 : @World platform := @Build_World platform [] boot [].

(** The world after [with Pty() as pty:] has entered: object 0 holds the
    two open descriptors. *)
Definition world_pty : @World platform :=
  snd ((self ← Pty__init__; Pty__enter__ self) world0).

End Sim.

(** ** The rest of [util.py] *)

(** *** [tmpdir] *)

Section Tmpdir.
Context `{P : Platform}.

(** [tempfile.mkdtemp()]: the path of the directory it has created, or an
    [OSError].  It is not one of the logged calls. *)
Variable mkdtemp : Env -> osres string * Env.

Definition mkdtemp_m : M string :=
  fun s =>
    match mkdtemp (env s) with
    | (OsOk d, e) => (Ret d, {| log := log s; env := e; ptys := ptys s |})
    | (OsErr n, e) =>
      (Raise (ExOSError n), {| log := log s; env := e; ptys := ptys s |})
    end.

(** [with tmpdir() as tempdir: body tempdir].  The generator makes the
    directory, yields it inside [try:], and removes it in [finally:]. *)
Definition tmpdir {A} (body : string -> M A) : M A :=
  tempdir ← mkdtemp_m;
  (fun s =>
     match body tempdir s with
     | (Ret a, s') => (rmtree tempdir;; ret a) s'
     | (Raise e, s') => (rmtree tempdir;; raise e) s'
     | (Bottom, s') => (Bottom, s')
     end) : M A.

End Tmpdir.

(** *** [CalledProcessError.__bytes__] *)

Definition LF : byte := x0a.
Definition SP : byte := x20.

(** [part.replace(b'\n', b'\n    ')]. *)
Definition indent_newlines (part : bytes) : bytes :=
  flat_map (fun c => if Byte.eqb c LF then [LF; SP; SP; SP; SP] else [c]) part.

(** [_indent_or_none(part)]; [if part:] is false for [None] and for [b'']. *)
Definition _indent_or_none (part : option bytes) : bytes :=
  match part with
  | Some (c :: rest) => [LF; SP; SP; SP; SP] ++ indent_newlines (c :: rest)
  | _ => list_byte_of_string " (none)"
  end.

(** [str(n)] for an [int], as an f-string formats it. *)
Definition str_of_int (n : Z) : string := NilZero.string_of_int (Z.to_int n).

(** [CalledProcessError.__bytes__(self)]; [repr] is Python's [repr] of the
    tuple of strings [self.cmd]. *)
Definition CalledProcessError__bytes__ (repr : list string -> string)
    (self : CalledProcessError) : bytes :=
  concat
    [ list_byte_of_string ("command: " ++ repr (cmd self) ++ String "010" EmptyString);
      list_byte_of_string
        ("return code: " ++ str_of_int (returncode self) ++ String "010" EmptyString);
      list_byte_of_string
        ("expected return code: " ++ str_of_int (expected_returncode self)
           ++ String "010" EmptyString);
      list_byte_of_string "stdout:"; _indent_or_none (stdout self); [LF];
      list_byte_of_string "stderr:"; _indent_or_none (stderr self) ].

(** [CalledProcessError.__str__(self)]: the text, or [None] when [decode()]
    raises [UnicodeDecodeError]. *)
Definition CalledProcessError__str__ (repr : list string -> string)
    (self : CalledProcessError) : option text :=
  decode_utf8 (CalledProcessError__bytes__ repr self).

(** One step of [decode_utf8]: the first code point and the bytes after
    it. *)
Definition decode_one (bs : bytes) : option (Z * bytes) :=
  match bs with
  | [] => None
  | b0 :: t0 =>
    let v0 := byte_val b0 in
    if (v0 <? 128)%Z then Some (v0, t0)
    else
      match t0 with
      | [] => None
      | b1 :: t1 =>
        let v1 := byte_val b1 in
        if in_range 194 223 v0 then
          if is_cont v1
          then Some (Z.lor (Z.shiftl (Z.land v0 31) 6) (low6 v1), t1)
          else None
        else
          match t1 with
          | [] => None
          | b2 :: t2 =>
            let v2 := byte_val b2 in
            if in_range 224 239 v0 then
              if in_range (if (v0 =? 224)%Z then 160 else 128)
                          (if (v0 =? 237)%Z then 159 else 191) v1
                 && is_cont v2
              then Some (Z.lor (Z.shiftl (Z.land v0 15) 12)
                           (Z.lor (Z.shiftl (low6 v1) 6) (low6 v2)), t2)
              else None
            else
              match t2 with
              | [] => None
              | b3 :: t3 =>
                let v3 := byte_val b3 in
                if in_range 240 244 v0
                   && in_range (if (v0 =? 240)%Z then 144 else 128)
                               (if (v0 =? 244)%Z then 143 else 191) v1
                   && is_cont v2 && is_cont v3
                then Some (Z.lor (Z.shiftl (Z.land v0 7) 18)
                             (Z.lor (Z.shiftl (low6 v1) 12)
                                (Z.lor (Z.shiftl (low6 v2) 6) (low6 v3))), t3)
                else None
              end
          end
      end
  end.

(** Bytes that [decode()] accepts. *)
Definition valid_utf8 (bs : bytes) : Prop := is_Some (decode_utf8 bs).

(** A stream as the rendering tells it apart: [b''] and [None] are one. *)
Definition shown (part : option bytes) : option bytes :=
  match part with
  | Some (c :: rest) => Some (c :: rest)
  | _ => None
  end.

(** *** [parse_version] *)

(** [s.split(sep)] for a separator of one character. *)
Fixpoint split (sep : ascii) (s : string) : list string :=
  match s with
  | EmptyString => [EmptyString]
  | String c rest =>
    if Ascii.eqb c sep then EmptyString :: split sep rest
    else
      match split sep rest with
      | head :: tail => String c head :: tail
      | [] => [String c EmptyString]
      end
  end.

(** What [parse_version] gives: the tuple, or the [ValueError] of the first
    part that [int] refuses. *)
Inductive version :=
| Version (t : list Z)
| ValueError (part : string).

Section Parse_version.

(** Python's [int(p)] on a string; [None] when it raises [ValueError]. *)
Variable int_of_str : string -> option Z.

(** [tuple(int(p) for p in parts)]: the parts are converted in order. *)
Fixpoint ints (parts : list string) : version :=
  match parts with
  | [] => Version []
  | p :: rest =>
    match int_of_str p with
    | None => ValueError p
    | Some n =>
      match ints rest with
      | Version t => Version (n :: t)
      | ValueError q => ValueError q
      end
    end
  end.

(** [parse_version(s)]. *)
Definition parse_version (s : string) : version := ints (split "." s).

End Parse_version.

(** Number of occurrences of a character. *)
Fixpoint count_char (c : ascii) (s : string) : nat :=
  match s with
  | EmptyString => 0
  | String a rest => (if Ascii.eqb a c then 1 else 0) + count_char c rest
  end.

(** *** Words for runs of the platform *)

(** The log entry of one operation of a removal walk. *)
Definition call_event (fp : rmfunc * string) : event := EvCall (fst fp) (snd fp).

Section Platform_runs.
Context `{P : Platform}.

(** [walks e plan e']: from [e], every operation of [plan] succeeds, one
    after the other, and leaves the machine [e']. *)
Inductive walks : Env -> list (rmfunc * string) -> Env -> Prop :=
| walks_nil e : walks e [] e
| walks_cons e f p e1 rest e2 :
    os_call f p e = (OsOk tt, e1) ->
    walks e1 rest e2 ->
    walks e ((f, p) :: rest) e2.

(** The last operation [shutil.rmtree(path)] attempts is [os.rmdir(path)],
    on the top directory itself. *)
Definition plan_ends_with_rmdir : Prop :=
  forall path e, exists pre, rmtree_plan path e = pre ++ [(os_rmdir, path)].

(** Once [os.rmdir(path)] has returned, [path] does not exist. *)
Definition rmdir_removes : Prop :=
  forall path e e',
    os_call os_rmdir path e = (OsOk tt, e') -> os_path_exists path e' = false.

End Platform_runs.

(** *** More of the small machine *)

Module SimLib.

(** [mkdtemp] on the small machine: a new, empty, writable directory. *)
Definition mkdtemp (m : Sim.machine) : osres string * Sim.machine :=
  (OsOk "/tmp/t0", Sim.with_files (("/tmp/t0", 16832%Z) :: Sim.files m) m).

(** [int] for the strings [str] gives: an optional minus sign and digits. *)
Definition int_of_str (s : string) : option Z :=
  Z.of_int <$> NilZero.int_of_string s.

(** [repr] of a tuple, for commands whose strings need no escaping. *)
Definition repr (cmd : list string) : string :=
  match cmd with
  | [x] => ("('" ++ x ++ "',)")%string
  | _ =>
    ("(" ++ String.concat ", " (map (fun x => "'" ++ x ++ "'")%string cmd) ++ ")")%string
  end.

(** The small machine with faults: when an [errno] is given, every spawn,
    every [openpty], or every operation of a removal walk fails with it. *)
Definition faulty (spawn_errno pty_errno call_errno : option Z) : Platform := {|
  Env := Sim.machine;
  normalize_cmd := fun cmd _ => Sim.resolve cmd;
  Popen := fun cmd kwargs m =>
    match spawn_errno with
    | Some n => (OsErr n, m)
    | None => Sim.spawn cmd kwargs m
    end;
  communicate := Sim.finish;
  proc_returncode := fun proc m => Sim.exit_code (default [] (Sim.procs m !! proc));
  wait := fun proc m => (Sim.exit_code (default [] (Sim.procs m !! proc)), m);
  open_devnull := fun m => (OsOk 0, m);
  file_close := fun _ m => m;
  openpty := fun m =>
    match pty_errno with
    | Some n => (OsErr n, m)
    | None => Sim.new_pty m
    end;
  tcgetattr := fun _ _ =>
    {| iflag := 0; oflag := 5; cflag := 0; lflag := 0;
       ispeed := 0; ospeed := 0; cc := [] |};
  tcsetattr := fun _ _ m => m;
  ONLCR := 4;
  OPOST := 1;
  os_close := fun _ m => m;
  os_read := Sim.read;
  os_path_exists := fun path m =>
    bool_decide (is_Some (Sim.lookup_file path (Sim.files m)));
  os_path_dirname := Sim.dirname;
  os_stat := Sim.stat_mode;
  os_chmod := Sim.chmod;
  os_call := fun f path m =>
    match call_errno with
    | Some n => (OsErr n, m)
    | None => Sim.apply f path m
    end;
  rmtree_plan := Sim.plan;
|}.

Definition faulty_world (spawn_errno pty_errno call_errno : option Z)
  : @World (faulty spawn_errno pty_errno call_errno) :=
  @Build_World (faulty spawn_errno pty_errno call_errno) [] Sim.boot [].

(** A machine on which every entry of [/tmp/d] can be deleted, and one
    with a read-only file named by a relative path. *)
Definition boot_rw : Sim.machine :=
  Sim.with_files [("/tmp/d/f", 33188%Z); ("/tmp/d", 16877%Z); ("/tmp", 17407%Z)]
    Sim.boot.

Definition boot_rel : Sim.machine :=
  Sim.with_files [("ro", 33060%Z)] Sim.boot.

(** A machine whose working directory holds one empty, read-only
    directory, named by the relative path [d] (mode [0o40555]). *)
Definition boot_dir : Sim.machine :=
  Sim.with_files [("d", 16749%Z)] Sim.boot.

End SimLib.

(** *** Kinds of exception *)

Section Exception_surface.
Context `{P : Platform}.

Definition is_OSError (e : exn) : Prop := exists n, e = ExOSError n.

End Exception_surface.

(** * Properties *)

Section Monad_facts.
Context `{P : Platform}.

Lemma bind_Ret {A B} (m : M A) (k : A -> M B) s a s' :
  m s = (Ret a, s') -> (m ≫= k) s = k a s'.
Proof. intros H. unfold mbind, M_bind, bind. now rewrite H. Qed.

Lemma bind_Raise {A B} (m : M A) (k : A -> M B) s e s' :
  m s = (Raise e, s') -> (m ≫= k) s = (Raise e, s').
Proof. intros H. unfold mbind, M_bind, bind. now rewrite H. Qed.




End Monad_facts.

(** Unfolds the monad and the logged calls down to the platform's own
    functions. *)
Ltac run :=
  unfold mbind, M_bind, bind, mret, M_ret, ret, raise, try_except, assert,
    normalize_cmd_m, Popen_m, communicate_m, proc_returncode_m, wait_m,
    open_devnull_m, file_close_m, openpty_m, tcgetattr_m, tcsetattr_m,
    os_close_m, os_read_m, os_path_exists_m, os_stat_m, os_chmod_m,
    os_call_m, call, syscall, record in *;
  cbn [fst snd log env ptys] in *.

Section Runner.
Context `{P : Platform}.

(** The part of [cmd_output_b] before the comparison with [retcode], when
    the executable is not found: one call to the resolver, nothing else. *)
Lemma cmd_output_b_not_found_run cmd retcode kwargs s rc out err :
  normalize_cmd cmd (env s) = ExecutableNotFound (rc, out, err) ->
  cmd_output_b cmd retcode kwargs s =
  (match retcode with
   | Some expected =>
     if (expected =? rc)%Z then Ret (rc, out, err)
     else Raise (ExCalledProcessError
                   (CalledProcessError__init__ rc cmd expected out err))
   | None => Ret (rc, out, err)
   end,
   {| log := log s ++ [EvNormalize cmd]; env := env s; ptys := ptys s |}).
Proof.
  intros Hn. unfold cmd_output_b. run. rewrite Hn.
  destruct retcode as [expected|]; [|reflexivity].
  destruct (expected =? rc)%Z; reflexivity.
Qed.

(** The same part when the executable is found and the process starts. *)
Lemma cmd_output_b_spawn_run cmd retcode kwargs s cmd' proc e1 out err e2 :
  normalize_cmd cmd (env s) = Resolved cmd' ->
  Popen cmd' (_setdefault_kwargs kwargs) (env s) = (OsOk proc, e1) ->
  communicate proc e1 = (out, err, e2) ->
  cmd_output_b cmd retcode kwargs s =
  (match retcode with
   | Some expected =>
     if (expected =? proc_returncode proc e2)%Z
     then Ret (proc_returncode proc e2, out, err)
     else Raise (ExCalledProcessError
                   (CalledProcessError__init__
                      (proc_returncode proc e2) cmd' expected out err))
   | None => Ret (proc_returncode proc e2, out, err)
   end,
   {| log := log s ++ [EvNormalize cmd;
                       EvPopen cmd' (_setdefault_kwargs kwargs);
                       EvCommunicate proc];
      env := e2; ptys := ptys s |}).
Proof.
  intros Hn Hp Hc. unfold cmd_output_b. run. rewrite Hn. run.
  rewrite Hp. run. rewrite Hc. run.
  rewrite <- !app_assoc. cbn [app].
  destruct retcode as [expected|]; [|reflexivity].
  destruct (expected =? proc_returncode proc e2)%Z; reflexivity.
Qed.

(** C1 (as amended).  When the resolver does not find the executable and
    reports the triple [(rc, out, err)] with a non-zero [rc], [cmd_output_b]
    consults the resolver and does nothing else: no process is spawned and
    the machine is untouched.  With no expectation ([retcode=None]) the
    triple is returned as data; with the default expectation [0] the triple
    leaves as a [CalledProcessError] carrying the original command; with any
    other expectation it is returned exactly when the expectation equals
    [rc]. *)
Theorem cmd_output_b_executable_not_found cmd kwargs s rc out err :
  normalize_cmd cmd (env s) = ExecutableNotFound (rc, out, err) ->
  rc <> 0%Z ->
  let s' := {| log := log s ++ [EvNormalize cmd]; env := env s; ptys := ptys s |} in
  cmd_output_b cmd None kwargs s = (Ret (rc, out, err), s') /\
  cmd_output_b cmd retcode_default kwargs s =
    (Raise (ExCalledProcessError (CalledProcessError__init__ rc cmd 0 out err)), s') /\
  (forall expected,
     cmd_output_b cmd (Some expected) kwargs s =
     (if (expected =? rc)%Z then Ret (rc, out, err)
      else Raise (ExCalledProcessError
                    (CalledProcessError__init__ rc cmd expected out err)),
      s')).
Proof.
  intros Hn Hrc s'. repeat split.
  - now rewrite (cmd_output_b_not_found_run _ _ _ _ _ _ _ Hn).
  - rewrite (cmd_output_b_not_found_run _ _ _ _ _ _ _ Hn).
    unfold retcode_default.
    destruct (0 =? rc)%Z eqn:E; [|reflexivity].
    apply Z.eqb_eq in E. congruence.
  - intros expected. now rewrite (cmd_output_b_not_found_run _ _ _ _ _ _ _ Hn).
Qed.

(** C2.  With [retcode=None], [cmd_output_b] never raises
    [CalledProcessError]; when the process was spawned and ran, the call
    returns the exit code the process left and the two streams it
    produced, whatever that exit code is; when the executable was not
    found, it returns the resolver's triple. *)
Theorem cmd_output_b_no_expectation cmd kwargs s :
  (forall e s', cmd_output_b cmd None kwargs s <> (Raise (ExCalledProcessError e), s')) /\
  (forall cmd' proc e1 out err e2,
     normalize_cmd cmd (env s) = Resolved cmd' ->
     Popen cmd' (_setdefault_kwargs kwargs) (env s) = (OsOk proc, e1) ->
     communicate proc e1 = (out, err, e2) ->
     cmd_output_b cmd None kwargs s =
     (Ret (proc_returncode proc e2, out, err),
      {| log := log s ++ [EvNormalize cmd;
                          EvPopen cmd' (_setdefault_kwargs kwargs);
                          EvCommunicate proc];
         env := e2; ptys := ptys s |})) /\
  (forall rc out err,
     normalize_cmd cmd (env s) = ExecutableNotFound (rc, out, err) ->
     cmd_output_b cmd None kwargs s =
     (Ret (rc, out, err),
      {| log := log s ++ [EvNormalize cmd]; env := env s; ptys := ptys s |})).
Proof.
  split; [|split].
  - intros e s'. unfold cmd_output_b. run.
    destruct (normalize_cmd cmd (env s)) as [cmd'|[[rc out] err]]; run.
    + destruct (Popen cmd' (_setdefault_kwargs kwargs) (env s)) as [[proc|n] e1]; run.
      * destruct (communicate proc e1) as [[out err] e2]. run. discriminate.
      * discriminate.
    + discriminate.
  - intros cmd' proc e1 out err e2 Hn Hp Hc.
    now rewrite (cmd_output_b_spawn_run _ None _ _ _ _ _ _ _ _ Hn Hp Hc).
  - intros rc out err Hn.
    now rewrite (cmd_output_b_not_found_run _ None _ _ _ _ _ Hn).
Qed.

(** C3 (as amended).  When an expectation is supplied and the exit code
    differs from it, the [CalledProcessError] raised by [cmd_output_b]
    carries the actual exit code, the expectation, and the two streams of
    that run; its [cmd] is the command as the resolver normalized it when
    the executable was found, and the caller's command when it was not. *)
Theorem CalledProcessError_fields argv expected kwargs s :
  (forall argv' proc e1 out err e2,
     normalize_cmd argv (env s) = Resolved argv' ->
     Popen argv' (_setdefault_kwargs kwargs) (env s) = (OsOk proc, e1) ->
     communicate proc e1 = (out, err, e2) ->
     proc_returncode proc e2 <> expected ->
     exists exc s',
       cmd_output_b argv (Some expected) kwargs s = (Raise (ExCalledProcessError exc), s') /\
       cmd exc = argv' /\
       returncode exc = proc_returncode proc e2 /\
       expected_returncode exc = expected /\
       stdout exc = out /\ stderr exc = err /\
       args exc = (proc_returncode proc e2, argv', expected, out, err)) /\
  (forall rc out err,
     normalize_cmd argv (env s) = ExecutableNotFound (rc, out, err) ->
     rc <> expected ->
     exists exc s',
       cmd_output_b argv (Some expected) kwargs s = (Raise (ExCalledProcessError exc), s') /\
       cmd exc = argv /\
       returncode exc = rc /\
       expected_returncode exc = expected /\
       stdout exc = out /\ stderr exc = err /\
       args exc = (rc, argv, expected, out, err)).
Proof.
  split.
  - intros argv' proc e1 out err e2 Hn Hp Hc Hrc.
    rewrite (cmd_output_b_spawn_run _ _ _ _ _ _ _ _ _ _ Hn Hp Hc).
    destruct (expected =? proc_returncode proc e2)%Z eqn:E.
    + apply Z.eqb_eq in E. congruence.
    + eexists _, _. repeat split.
  - intros rc out err Hn Hrc.
    rewrite (cmd_output_b_not_found_run _ _ _ _ _ _ _ Hn).
    destruct (expected =? rc)%Z eqn:E.
    + apply Z.eqb_eq in E. congruence.
    + eexists _, _. repeat split.
Qed.

(** C10.  A call of [cmd_output_p] with a [retcode] other than [None], or
    without a ['stderr'] keyword, or with a ['stderr'] that is not
    [subprocess.STDOUT], raises ([AssertionError], or [KeyError] for the
    missing key) and leaves the world as it was: the resolver was not
    consulted and no process was spawned. *)
Theorem cmd_output_p_contract fuel cmd retcode kwargs s :
  (retcode <> None ->
   cmd_output_p fuel cmd retcode kwargs s = (Raise ExAssertionError, s)) /\
  (retcode = None -> kwargs !! "stderr" = None ->
   cmd_output_p fuel cmd retcode kwargs s = (Raise (ExKeyError "stderr"), s)) /\
  (forall v, retcode = None -> kwargs !! "stderr" = Some v -> v <> STDOUT ->
   cmd_output_p fuel cmd retcode kwargs s = (Raise ExAssertionError, s)).
Proof.
  repeat split.
  - intros Hr. unfold cmd_output_p. rewrite bool_decide_eq_false_2 by assumption.
    reflexivity.
  - intros -> Hk. unfold cmd_output_p. rewrite Hk. reflexivity.
  - intros v -> Hk Hv. unfold cmd_output_p. rewrite Hk.
    rewrite bool_decide_eq_true_2 by reflexivity. run.
    rewrite bool_decide_eq_false_2 by assumption. reflexivity.
Qed.

End Runner.

(** ** The runners on the small machine *)

Lemma cmd_output_b_executable_not_found_witness :
  @normalize_cmd Sim.platform ["dne"] Sim.boot
    = ExecutableNotFound (1%Z, Sim.dne_output, None) /\
  cmd_output_b ["dne"] None ∅ Sim.world0 =
    (Ret (1%Z, Sim.dne_output, None),
     @Build_World Sim.platform [EvNormalize ["dne"]] Sim.boot []).
Proof.
  split; [reflexivity|].
  apply (cmd_output_b_executable_not_found (P := Sim.platform)
           ["dne"] ∅ Sim.world0 1%Z Sim.dne_output None);
    [reflexivity | lia].
Defined.

(** C1, as stated, fails: the executable [dne] is not found, the call uses
    the default expectation, and the outcome is a raised
    [CalledProcessError], not a returned triple. *)
Lemma cmd_output_b_not_found_default_raises :
  @normalize_cmd Sim.platform ["dne"] Sim.boot
    = ExecutableNotFound (1%Z, Sim.dne_output, None) /\
  cmd_output_b ["dne"] retcode_default ∅ Sim.world0 =
    (Raise (ExCalledProcessError
              (CalledProcessError__init__ 1 ["dne"] 0 Sim.dne_output None)),
     @Build_World Sim.platform [EvNormalize ["dne"]] Sim.boot []) /\
  (forall res s', cmd_output_b ["dne"] retcode_default ∅ Sim.world0 <> (Ret res, s')).
Proof.
  split; [reflexivity|]. split; [reflexivity|].
  intros res s'. discriminate.
Qed.

Lemma cmd_output_b_no_expectation_witness :
  cmd_output_b ["false"] None ∅ Sim.world0 =
    (Ret (1%Z, Some [], Some []),
     @Build_World Sim.platform
       [EvNormalize ["false"];
        EvPopen ["/bin/false"] (_setdefault_kwargs ∅);
        EvCommunicate 0]
       (snd (Sim.spawn ["/bin/false"] ∅ Sim.boot)) []).
Proof.
  apply (proj1 (proj2 (cmd_output_b_no_expectation (P := Sim.platform)
                         ["false"] ∅ Sim.world0))
           ["/bin/false"] 0%nat (snd (Sim.spawn ["/bin/false"] ∅ Sim.boot))
           (Some []) (Some []) (snd (Sim.spawn ["/bin/false"] ∅ Sim.boot)));
    reflexivity.
Defined.

Lemma CalledProcessError_fields_witness :
  exists exc s',
    cmd_output_b ["false"] (Some 0%Z) ∅ Sim.world0
      = (Raise (ExCalledProcessError exc), s') /\
    cmd exc = ["/bin/false"] /\
    returncode exc = 1%Z /\
    expected_returncode exc = 0%Z /\
    stdout exc = Some [] /\ stderr exc = Some [] /\
    args exc = (1%Z, ["/bin/false"], 0%Z, Some [], Some []).
Proof.
  apply (proj1 (CalledProcessError_fields (P := Sim.platform)
                  ["false"] 0%Z ∅ Sim.world0)
           ["/bin/false"] 0%nat (snd (Sim.spawn ["/bin/false"] ∅ Sim.boot))
           (Some []) (Some []) (snd (Sim.spawn ["/bin/false"] ∅ Sim.boot)));
    [reflexivity | reflexivity | reflexivity | vm_compute; lia].
Defined.

(** C3, as stated, fails: the caller's command is [false], the resolver
    turns it into [/bin/false], the process exits with 1 against the
    expectation 0, and the error's [cmd] is not the caller's command. *)
Lemma CalledProcessError_cmd_is_normalized :
  exists exc s',
    cmd_output_b ["false"] (Some 0%Z) ∅ Sim.world0
      = (Raise (ExCalledProcessError exc), s') /\
    cmd exc = ["/bin/false"] /\
    cmd exc <> ["false"].
Proof.
  eexists _, _. split; [reflexivity|]. split; [reflexivity|]. discriminate.
Qed.

Lemma cmd_output_p_contract_witness :
  cmd_output_p 8 ["echo"; "hi"] retcode_default {["stderr" := STDOUT]} Sim.world0
    = (Raise ExAssertionError, Sim.world0) /\
  cmd_output_p 8 ["echo"; "hi"] None ∅ Sim.world0
    = (Raise (ExKeyError "stderr"), Sim.world0) /\
  cmd_output_p 8 ["echo"; "hi"] None {["stderr" := PIPE]} Sim.world0
    = (Raise ExAssertionError, Sim.world0).
Proof.
  pose proof (cmd_output_p_contract (P := Sim.platform) 8 ["echo"; "hi"]
                retcode_default {["stderr" := STDOUT]} Sim.world0) as H1.
  pose proof (cmd_output_p_contract (P := Sim.platform) 8 ["echo"; "hi"]
                None ∅ Sim.world0) as H2.
  pose proof (cmd_output_p_contract (P := Sim.platform) 8 ["echo"; "hi"]
                None {["stderr" := PIPE]} Sim.world0) as H3.
  split; [apply (proj1 H1); discriminate|].
  split; [apply (proj1 (proj2 H2)); reflexivity|].
  apply (proj2 (proj2 H3) PIPE); [reflexivity | reflexivity | discriminate].
Defined.


Section Pty_session.
Context `{P : Platform}.


Lemma close_w_closed self s p :
  ptys s !! self = Some p -> w p = None -> close_w self s = (Ret tt, s).
Proof.
  intros H Hw. unfold close_w, get_pty. run. rewrite H, Hw. reflexivity.
Qed.

Lemma close_r_closed self s p :
  ptys s !! self = Some p -> r p = None ->
  close_r self s = (Raise ExAssertionError, s).
Proof.
  intros H Hr. unfold close_r, get_pty. run. rewrite H, Hr. reflexivity.
Qed.

(** What a successful [close_w] leaves: the descriptor is closed on the
    machine and the attribute is [None]. *)
Lemma close_w_open self s p fd :
  ptys s !! self = Some p -> w p = Some fd ->
  close_w self s =
    (Ret tt,
     {| log := log s ++ [EvClose fd]; env := os_close fd (env s);
        ptys := <[self := {| r := r p; w := None |}]> (ptys s) |}).
Proof.
  intros H Hw. unfold close_w, get_pty, set_pty. run. rewrite H, Hw. run.
  rewrite H. reflexivity.
Qed.

Lemma close_r_open self s p fd :
  ptys s !! self = Some p -> r p = Some fd ->
  close_r self s =
    (Ret tt,
     {| log := log s ++ [EvClose fd]; env := os_close fd (env s);
        ptys := <[self := {| r := None; w := w p |}]> (ptys s) |}).
Proof.
  intros H Hr. unfold close_r, get_pty, set_pty. run. rewrite H, Hr. run.
  rewrite H. reflexivity.
Qed.

(** C4 (as amended).  Closing the write end a second time is a no-op:
    after [close_w] has returned, another [close_w] returns normally and
    changes nothing.  Closing the read end a second time is an error:
    after [close_r] has returned, another [close_r] raises
    [AssertionError] (and calls nothing). *)
Theorem Pty_close_again self s s1 :
  (close_w self s = (Ret tt, s1) -> close_w self s1 = (Ret tt, s1)) /\
  (close_r self s = (Ret tt, s1) -> close_r self s1 = (Raise ExAssertionError, s1)).
Proof.
  split; intros H.
  - destruct (ptys s !! self) as [p|] eqn:Hp.
    + destruct (w p) as [fd|] eqn:Hw.
      * rewrite (close_w_open _ _ _ _ Hp Hw) in H. inversion H; subst; clear H.
        apply (close_w_closed _ _ {| r := r p; w := None |}); [|reflexivity].
        cbn [ptys].
        apply list_lookup_insert_eq. eapply lookup_lt_Some; eassumption.
      * rewrite (close_w_closed _ _ _ Hp Hw) in H. inversion H; subst.
        eapply close_w_closed; eassumption.
    + unfold close_w, get_pty in H. run. rewrite Hp in H. discriminate.
  - destruct (ptys s !! self) as [p|] eqn:Hp.
    + destruct (r p) as [fd|] eqn:Hr.
      * rewrite (close_r_open _ _ _ _ Hp Hr) in H. inversion H; subst; clear H.
        apply (close_r_closed _ _ {| r := None; w := w p |}); [|reflexivity].
        cbn [ptys].
        apply list_lookup_insert_eq. eapply lookup_lt_Some; eassumption.
      * rewrite (close_r_closed _ _ _ Hp Hr) in H. discriminate.
    + unfold close_r, get_pty in H. run. rewrite Hp in H. discriminate.
Qed.

End Pty_session.

Lemma Pty_close_again_witness :
  close_w 0 (snd (close_w 0 Sim.world_pty)) = (Ret tt, snd (close_w 0 Sim.world_pty)) /\
  close_r 0 (snd (close_r 0 Sim.world_pty))
    = (Raise ExAssertionError, snd (close_r 0 Sim.world_pty)).
Proof.
  split.
  - apply (proj1 (Pty_close_again (P := Sim.platform) 0 Sim.world_pty
                    (snd (close_w 0 Sim.world_pty)))).
    reflexivity.
  - apply (proj2 (Pty_close_again (P := Sim.platform) 0 Sim.world_pty
                    (snd (close_r 0 Sim.world_pty)))).
    reflexivity.
Defined.

(** C4, as stated, fails for the read end: on an open pty the first
    [close_r] returns, and the second one does not return normally. *)
Lemma close_r_twice_raises :
  fst (close_r 0 Sim.world_pty) = Ret tt /\
  fst (close_r 0 (snd (close_r 0 Sim.world_pty))) = Raise ExAssertionError /\
  fst ((close_r 0;; close_r 0) Sim.world_pty) <> Ret tt.
Proof.
  split; [reflexivity|]. split; [reflexivity|]. discriminate.
Qed.

Section Text_runner.
Context `{P : Platform}.

Lemma decode_if_present_valid stream t s :
  utf8_text_of stream = Some t -> decode_if_present stream s = (Ret t, s).
Proof.
  destruct stream as [bs|]; cbn.
  - destruct (decode_utf8 bs); cbn; intros H; inversion H. reflexivity.
  - intros H; inversion H. reflexivity.
Qed.

Lemma decode_if_present_invalid stream s :
  utf8_text_of stream = None ->
  decode_if_present stream s = (Raise ExUnicodeDecodeError, s).
Proof.
  destruct stream as [bs|]; cbn; [|discriminate].
  destruct (decode_utf8 bs); cbn; [discriminate|reflexivity].
Qed.

(** Bytes below 128 decode to themselves. *)
Lemma decode_utf8_ascii bs :
  Forall (fun b => (byte_val b < 128)%Z) bs ->
  decode_utf8 bs = Some (map byte_val bs).
Proof.
  induction 1 as [|b bs Hb _ IH]; [reflexivity|].
  cbn [decode_utf8 map]. apply Z.ltb_lt in Hb. rewrite Hb, IH. reflexivity.
Qed.

(** C6.  [cmd_output] is [cmd_output_b] followed by a decoding of each
    stream on its own: when [cmd_output_b] returns [(rc, out, err)] and the
    streams that are present are valid UTF-8, [cmd_output] returns [rc]
    with exactly the decoded streams, in the same world, and a stream is
    absent after decoding exactly when it was absent before; what
    [cmd_output_b] raises, [cmd_output] raises; a present stream that is
    not valid UTF-8 makes [decode()] raise. *)
Theorem cmd_output_decodes cmd retcode kwargs s :
  (forall rc out err s' tout terr,
     cmd_output_b cmd retcode kwargs s = (Ret (rc, out, err), s') ->
     utf8_text_of out = Some tout ->
     utf8_text_of err = Some terr ->
     cmd_output cmd retcode kwargs s = (Ret (rc, tout, terr), s') /\
     (out = None <-> tout = None) /\
     (err = None <-> terr = None)) /\
  (forall e s',
     cmd_output_b cmd retcode kwargs s = (Raise e, s') ->
     cmd_output cmd retcode kwargs s = (Raise e, s')) /\
  (forall rc out err s',
     cmd_output_b cmd retcode kwargs s = (Ret (rc, out, err), s') ->
     utf8_text_of out = None \/ utf8_text_of err = None ->
     cmd_output cmd retcode kwargs s = (Raise ExUnicodeDecodeError, s')).
Proof.
  repeat split.
  - unfold cmd_output. rewrite (bind_Ret _ _ _ _ _ H).
    rewrite (bind_Ret _ _ _ _ _ (decode_if_present_valid _ _ _ H0)).
    rewrite (bind_Ret _ _ _ _ _ (decode_if_present_valid _ _ _ H1)).
    reflexivity.
  - intros ->. cbn in H0. congruence.
  - intros ->. destruct out as [bs|]; [|reflexivity].
    cbn in H0. destruct (decode_utf8 bs); discriminate.
  - intros ->. cbn in H1. congruence.
  - intros ->. destruct err as [bs|]; [|reflexivity].
    cbn in H1. destruct (decode_utf8 bs); discriminate.
  - intros e s' H. unfold cmd_output. now rewrite (bind_Raise _ _ _ _ _ H).
  - intros rc out err s' H [Ho|He]; unfold cmd_output;
      rewrite (bind_Ret _ _ _ _ _ H).
    + now rewrite (bind_Raise _ _ _ _ _ (decode_if_present_invalid _ _ Ho)).
    + destruct (utf8_text_of out) as [tout|] eqn:Ho.
      * rewrite (bind_Ret _ _ _ _ _ (decode_if_present_valid _ _ _ Ho)).
        now rewrite (bind_Raise _ _ _ _ _ (decode_if_present_invalid _ _ He)).
      * now rewrite (bind_Raise _ _ _ _ _ (decode_if_present_invalid _ _ Ho)).
Qed.

End Text_runner.

Lemma cmd_output_decodes_witness :
  cmd_output ["echo"; "hi"] retcode_default ∅ Sim.world0 =
    (Ret (0%Z, Some [104%Z; 105%Z; 10%Z], Some []),
     snd (cmd_output_b ["echo"; "hi"] retcode_default ∅ Sim.world0)).
Proof.
  apply (proj1 (cmd_output_decodes (P := Sim.platform)
                  ["echo"; "hi"] retcode_default ∅ Sim.world0)
           0%Z (Some (Sim.b ("hi" ++ String (ascii_of_nat 10) EmptyString))) (Some [])
           (snd (cmd_output_b ["echo"; "hi"] retcode_default ∅ Sim.world0))
           (Some [104%Z; 105%Z; 10%Z]) (Some []));
    reflexivity.
Defined.

Section Filesystem.
Context `{P : Platform}.

Lemma execute_bits mode i :
  Z.testbit (Z.lor (Z.lor (Z.lor mode S_IXUSR) S_IXGRP) S_IXOTH) i =
  Z.testbit mode i || (i =? 6)%Z || (i =? 3)%Z || (i =? 0)%Z.
Proof.
  rewrite !Z.lor_spec.
  change S_IXUSR with (2 ^ 6)%Z. change S_IXGRP with (2 ^ 3)%Z.
  change S_IXOTH with (2 ^ 0)%Z.
  rewrite !Z.pow2_bits_eqb by lia.
  rewrite (Z.eqb_sym 6), (Z.eqb_sym 3), (Z.eqb_sym 0). reflexivity.
Qed.

Lemma permission_bits_of_execute mode :
  Z.lor (Z.land mode (Z.lnot 4095))
        (Z.land (Z.lor (Z.lor (Z.lor mode S_IXUSR) S_IXGRP) S_IXOTH) 4095)
  = Z.lor (Z.lor (Z.lor mode S_IXUSR) S_IXGRP) S_IXOTH.
Proof.
  apply Z.bits_inj'. intros n Hn.
  rewrite Z.lor_spec, !Z.land_spec, Z.lnot_spec by assumption.
  rewrite execute_bits.
  change 4095%Z with (Z.ones 12).
  destruct (Z.lt_ge_cases n 12) as [Hlt|Hge].
  - rewrite Z.ones_spec_low by lia. cbn.
    rewrite andb_false_r, !andb_true_r. reflexivity.
  - rewrite Z.ones_spec_high by lia. cbn.
    rewrite !andb_false_r, andb_true_r, orb_false_r.
    destruct (Z.eqb_spec n 6); [lia|]. destruct (Z.eqb_spec n 3); [lia|].
    destruct (Z.eqb_spec n 0); [lia|]. now rewrite !orb_false_r.
Qed.

(** C9.  [make_executable(filename)] on a file whose mode is [mode] asks
    for one [chmod], with the mode [mode | S_IXUSR | S_IXGRP | S_IXOTH]:
    bits 6, 3 and 0 (owner, group, other execute) are set in it and every
    other bit is the bit of [mode]; where [chmod] sets the permission bits
    it is given, that mode is the file's mode afterwards. *)
Theorem make_executable_mode filename s mode res e' :
  os_stat filename (env s) = OsOk mode ->
  let new_mode := Z.lor (Z.lor (Z.lor mode S_IXUSR) S_IXGRP) S_IXOTH in
  os_chmod filename new_mode (env s) = (res, e') ->
  make_executable filename s =
    (match res with
     | OsOk _ => Ret tt
     | OsErr n => Raise (ExOSError n)
     end,
     {| log := log s ++ [EvStat filename; EvChmod filename new_mode];
        env := e'; ptys := ptys s |}) /\
  Z.testbit new_mode 6 = true /\
  Z.testbit new_mode 3 = true /\
  Z.testbit new_mode 0 = true /\
  (forall i, i <> 6%Z -> i <> 3%Z -> i <> 0%Z ->
             Z.testbit new_mode i = Z.testbit mode i) /\
  (chmod_sets_permission_bits -> res = OsOk tt ->
   os_stat filename e' = OsOk new_mode).
Proof.
  intros Hs new_mode Hc. repeat split.
  - unfold make_executable. run. rewrite Hs. run. fold new_mode. rewrite Hc.
    rewrite <- app_assoc. destruct res as [[]|n]; reflexivity.
  - subst new_mode. rewrite execute_bits. now destruct (Z.testbit mode 6).
  - subst new_mode. rewrite execute_bits. now destruct (Z.testbit mode 3).
  - subst new_mode. rewrite execute_bits. now destruct (Z.testbit mode 0).
  - intros i H6 H3 H0. subst new_mode. rewrite execute_bits.
    destruct (Z.eqb_spec i 6); [lia|]. destruct (Z.eqb_spec i 3); [lia|].
    destruct (Z.eqb_spec i 0); [lia|]. now rewrite !orb_false_r.
  - intros Hlaw ->. rewrite (Hlaw _ _ _ _ _ Hs Hc).
    subst new_mode. now rewrite permission_bits_of_execute.
Qed.

End Filesystem.

Lemma Sim_lookup_file_map path new fs old :
  Sim.lookup_file path fs = Some old ->
  Sim.lookup_file path
    (map (fun e => if String.eqb (fst e) path then (fst e, new) else e) fs)
  = Some new.
Proof.
  induction fs as [|[p mode] fs IH]; cbn; [discriminate|].
  destruct (String.eqb p path) eqn:E; cbn; rewrite E; [reflexivity|]. exact IH.
Qed.

(** The small machine's [chmod] is of the kind C9 speaks of. *)
Lemma Sim_chmod_sets_permission_bits :
  @chmod_sets_permission_bits Sim.platform.
Proof.
  intros path mode e old e' Hs Hc. cbn in *.
  unfold Sim.stat_mode, Sim.chmod in *.
  destruct (Sim.lookup_file path (Sim.files e)) as [old'|] eqn:E; [|discriminate].
  inversion Hs; subst old'. inversion Hc; subst e'; clear Hc. cbn.
  now rewrite (Sim_lookup_file_map _ _ _ _ E).
Qed.

Lemma make_executable_mode_witness :
  make_executable "/tmp/d/ro" Sim.world0 =
    (Ret tt,
     @Build_World Sim.platform
       [EvStat "/tmp/d/ro"; EvChmod "/tmp/d/ro" 33133]
       (snd (Sim.chmod "/tmp/d/ro" 33133 Sim.boot)) []) /\
  Sim.stat_mode "/tmp/d/ro" Sim.boot = OsOk 33060%Z /\
  Sim.stat_mode "/tmp/d/ro" (snd (Sim.chmod "/tmp/d/ro" 33133 Sim.boot))
    = OsOk 33133%Z.
Proof.
  destruct (make_executable_mode (P := Sim.platform) "/tmp/d/ro" Sim.world0
              33060%Z (OsOk tt) (snd (Sim.chmod "/tmp/d/ro" 33133 Sim.boot))
              eq_refl eq_refl) as (Hrun & _ & _ & _ & _ & Hafter).
  split; [exact Hrun|]. split; [reflexivity|].
  apply Hafter; [exact Sim_chmod_sets_permission_bits | reflexivity].
Defined.

Section Removal.
Context `{P : Platform}.

(** The handler's retry: two [stat]/[chmod] pairs, then the function
    again, once; the outcome is the retry's. *)
Lemma handle_remove_readonly_retry func path s m1 e1 m2 e2 res e3 :
  func ∈ [os_rmdir; os_remove; os_unlink] ->
  os_stat path (env s) = OsOk m1 ->
  os_chmod path (Z.lor m1 S_IWUSR) (env s) = (OsOk tt, e1) ->
  os_stat (os_path_dirname path) e1 = OsOk m2 ->
  os_chmod (os_path_dirname path) (Z.lor m2 S_IWUSR) e1 = (OsOk tt, e2) ->
  os_call func path e2 = (res, e3) ->
  handle_remove_readonly func path (ExOSError EACCES) s =
    (match res with
     | OsOk _ => Ret tt
     | OsErr n => Raise (ExOSError n)
     end,
     {| log := log s ++ [EvStat path; EvChmod path (Z.lor m1 S_IWUSR);
                         EvStat (os_path_dirname path);
                         EvChmod (os_path_dirname path) (Z.lor m2 S_IWUSR);
                         EvCall func path];
        env := e3; ptys := ptys s |}).
Proof.
  intros Hf Hs1 Hc1 Hs2 Hc2 Hcall. unfold handle_remove_readonly.
  rewrite bool_decide_eq_true_2 by exact Hf.
  change (EACCES =? EACCES)%Z with true. cbn [andb foldr]. run.
  rewrite Hs1. run. rewrite Hc1. run. rewrite Hs2. run. rewrite Hc2. run.
  rewrite Hcall. rewrite <- !app_assoc. cbn [app].
  destruct res as [[]|n]; reflexivity.
Qed.

(** Any other function, any other exception: the handler raises what it
    was given and touches nothing. *)
Lemma handle_remove_readonly_reraise func path exc s :
  func ∉ [os_rmdir; os_remove; os_unlink] \/ exc <> ExOSError EACCES ->
  handle_remove_readonly func path exc s = (Raise exc, s).
Proof.
  intros H. unfold handle_remove_readonly.
  destruct exc as [| | |errno| |]; try reflexivity.
  destruct (bool_decide (func ∈ [os_rmdir; os_remove; os_unlink])) eqn:Hf;
    [|reflexivity].
  destruct (errno =? EACCES)%Z eqn:He; [|reflexivity].
  apply bool_decide_eq_true_1 in Hf. apply Z.eqb_eq in He. subst errno.
  destruct H as [H|H]; [contradiction (H Hf)|congruence].
Qed.

Lemma shutil_walk_step_ok h f p rest s e' :
  os_call f p (env s) = (OsOk tt, e') ->
  shutil_walk h ((f, p) :: rest) s =
  shutil_walk h rest {| log := log s ++ [EvCall f p]; env := e'; ptys := ptys s |}.
Proof. intros H. cbn [shutil_walk]. run. rewrite H. reflexivity. Qed.

Lemma shutil_walk_step_err h f p rest s n e' :
  os_call f p (env s) = (OsErr n, e') ->
  shutil_walk h ((f, p) :: rest) s =
  (h f p (ExOSError n);; shutil_walk h rest)
    {| log := log s ++ [EvCall f p]; env := e'; ptys := ptys s |}.
Proof. intros H. cbn [shutil_walk]. run. rewrite H. reflexivity. Qed.

(** Walking a plan in two parts. *)
Lemma shutil_walk_app h pre post s :
  shutil_walk h (pre ++ post) s = (shutil_walk h pre;; shutil_walk h post) s.
Proof.
  revert s. induction pre as [|[f p] pre IH]; intros s; [reflexivity|].
  cbn [app shutil_walk]. unfold mbind, M_bind, bind.
  destruct (try_except _ _ s) as [[[]|e|] s1]; [|reflexivity..].
  rewrite IH. reflexivity.
Qed.

(** In the case it takes up, the handler is the loop over the two paths
    followed by the function again. *)
Lemma handle_remove_readonly_clears func path s :
  func ∈ [os_rmdir; os_remove; os_unlink] ->
  handle_remove_readonly func path (ExOSError EACCES) s =
    (foldr (fun p rest =>
              mode ← os_stat_m p; os_chmod_m p (Z.lor mode S_IWUSR);; rest)
           (ret tt) [path; os_path_dirname path];;
     os_call_m func path) s.
Proof.
  intros Hf. unfold handle_remove_readonly.
  rewrite bool_decide_eq_true_2 by exact Hf. reflexivity.
Qed.

(** The handler returns only when its own call of the function has
    returned. *)
Lemma handle_remove_readonly_returns func path exc s s' :
  handle_remove_readonly func path exc s = (Ret tt, s') ->
  exists e, os_call func path e = (OsOk tt, env s').
Proof.
  unfold handle_remove_readonly.
  destruct exc as [| | |errno| |]; try discriminate.
  destruct (bool_decide _ && _); [|discriminate].
  cbn [foldr]. run.
  destruct (os_stat path (env s)) as [m1|n]; [|discriminate]. run.
  destruct (os_chmod path _ (env s)) as [[[]|n] e1]; [|discriminate]. run.
  destruct (os_stat (os_path_dirname path) e1) as [m2|n]; [|discriminate]. run.
  destruct (os_chmod (os_path_dirname path) _ e1) as [[[]|n] e2];
    [|discriminate]. run.
  destruct (os_call func path e2) as [[[]|n] e3] eqn:Hc; [|discriminate].
  intros H. inversion H; subst. cbn [env]. eauto.
Qed.

(** The handler and the walk always come to an end. *)
Lemma handle_remove_readonly_ends func path exc s :
  fst (handle_remove_readonly func path exc s) <> Bottom.
Proof.
  unfold handle_remove_readonly.
  destruct exc as [| | |errno| |]; try (cbn; discriminate).
  destruct (bool_decide _ && _); [|cbn; discriminate].
  cbn [foldr]. run.
  destruct (os_stat path (env s)) as [m1|n]; [|cbn; discriminate]. run.
  destruct (os_chmod path _ (env s)) as [[[]|n] e1]; [|cbn; discriminate]. run.
  destruct (os_stat (os_path_dirname path) e1) as [m2|n];
    [|cbn; discriminate]. run.
  destruct (os_chmod (os_path_dirname path) _ e1) as [[[]|n] e2];
    [|cbn; discriminate]. run.
  destruct (os_call func path e2) as [[[]|n] e3]; cbn; discriminate.
Qed.

Lemma shutil_walk_ends plan s :
  fst (shutil_walk handle_remove_readonly plan s) <> Bottom.
Proof.
  revert s. induction plan as [|[f p] rest IH]; intros s; [cbn; discriminate|].
  destruct (os_call f p (env s)) as [[[]|n] e1] eqn:Hc.
  - rewrite (shutil_walk_step_ok _ _ _ _ _ _ Hc). apply IH.
  - rewrite (shutil_walk_step_err _ _ _ _ _ _ _ Hc).
    unfold mbind, M_bind, bind.
    pose proof (handle_remove_readonly_ends f p (ExOSError n)
                  {| log := log s ++ [EvCall f p]; env := e1; ptys := ptys s |})
      as Hh.
    destruct (handle_remove_readonly f p (ExOSError n) _) as [[[]|e|] sh].
    + apply IH.
    + cbn. discriminate.
    + now contradiction Hh.
Qed.

(** A walk that returns has had its last operation return, at once or in
    the handler. *)
Lemma shutil_walk_last pre f p s s' :
  shutil_walk handle_remove_readonly (pre ++ [(f, p)]) s = (Ret tt, s') ->
  exists e, os_call f p e = (OsOk tt, env s').
Proof.
  rewrite shutil_walk_app. unfold mbind at 1, M_bind at 1, bind at 1.
  destruct (shutil_walk handle_remove_readonly pre s) as [[[]|e|] s1];
    [|discriminate..].
  destruct (os_call f p (env s1)) as [[[]|n] e1] eqn:Hc.
  - rewrite (shutil_walk_step_ok _ _ _ _ _ _ Hc). cbn.
    intros H. inversion H; subst. cbn [env]. eauto.
  - rewrite (shutil_walk_step_err _ _ _ _ _ _ _ Hc).
    unfold mbind, M_bind, bind.
    destruct (handle_remove_readonly f p (ExOSError n) _) as [[[]|e|] sh] eqn:Hh;
      [|discriminate..].
    cbn. intros H. inversion H; subst.
    exact (handle_remove_readonly_returns _ _ _ _ _ Hh).
Qed.

(** Where the walk ends with [os.rmdir(path)] and a directory that has been
    removed does not exist, [rmtree(path)] returns only when [path] is
    gone. *)
Lemma rmtree_returns_removed path s s' :
  plan_ends_with_rmdir -> rmdir_removes ->
  rmtree path s = (Ret tt, s') -> os_path_exists path (env s') = false.
Proof.
  intros Hplan Hrm. unfold rmtree, shutil_rmtree.
  destruct (Hplan path (env s)) as [pre ->]. intros H.
  destruct (shutil_walk_last _ _ _ _ _ H) as [e He]. exact (Hrm _ _ _ He).
Qed.

(** What the handler raises ends [rmtree]. *)
Lemma rmtree_handler_raises path s pre f p post s1 n e' x sh :
  rmtree_plan path (env s) = pre ++ (f, p) :: post ->
  shutil_walk handle_remove_readonly pre s = (Ret tt, s1) ->
  os_call f p (env s1) = (OsErr n, e') ->
  handle_remove_readonly f p (ExOSError n)
    {| log := log s1 ++ [EvCall f p]; env := e'; ptys := ptys s1 |}
    = (Raise x, sh) ->
  rmtree path s = (Raise x, sh).
Proof.
  intros Hplan Hpre Hcall Hh. unfold rmtree, shutil_rmtree.
  rewrite Hplan, shutil_walk_app, (bind_Ret _ _ _ _ _ Hpre),
    (shutil_walk_step_err _ _ _ _ _ _ _ Hcall).
  apply bind_Raise. exact Hh.
Qed.

(** C7 (as amended).  [clean_path_on_failure(path)] around a scope.  When
    the scope raises and the path exists, [rmtree(path)] runs, and it ends
    in one of two ways: when it returns, the scope's own exception goes on
    and the path no longer exists (on a machine where the walk ends with
    [os.rmdir(path)] and a removed directory does not exist); when it
    raises, its exception goes on in place of the scope's.  When the scope
    raises and the path does not exist, the scope's exception goes on and
    the machine is as the scope left it.  When the scope returns, its result
    and its world are returned as they are. *)
Theorem clean_path_on_failure_spec {A} path (body : M A) s :
  (forall e s1,
     body s = (Raise e, s1) ->
     os_path_exists path (env s1) = true ->
     let s1' :=
       {| log := log s1 ++ [EvExists path]; env := env s1; ptys := ptys s1 |} in
     (forall s2,
        rmtree path s1' = (Ret tt, s2) ->
        clean_path_on_failure path body s = (Raise e, s2) /\
        (plan_ends_with_rmdir -> rmdir_removes ->
         os_path_exists path (env s2) = false)) /\
     (forall e' s2,
        rmtree path s1' = (Raise e', s2) ->
        clean_path_on_failure path body s = (Raise e', s2)) /\
     fst (rmtree path s1') <> Bottom) /\
  (forall e s1,
     body s = (Raise e, s1) ->
     os_path_exists path (env s1) = false ->
     clean_path_on_failure path body s =
       (Raise e, {| log := log s1 ++ [EvExists path]; env := env s1; ptys := ptys s1 |})) /\
  (forall a s1,
     body s = (Ret a, s1) ->
     clean_path_on_failure path body s = (Ret a, s1)).
Proof.
  split; [|split].
  - intros e s1 Hb He s1'. split; [|split].
    + intros s2 Hr. split.
      * unfold clean_path_on_failure, try_except. rewrite Hb. run.
        rewrite He. fold s1'. rewrite Hr. reflexivity.
      * intros Hplan Hrm. exact (rmtree_returns_removed _ _ _ Hplan Hrm Hr).
    + intros e' s2 Hr. unfold clean_path_on_failure, try_except.
      rewrite Hb. run. rewrite He. fold s1'. rewrite Hr. reflexivity.
    + apply shutil_walk_ends.
  - intros e s1 Hb He. unfold clean_path_on_failure, try_except.
    rewrite Hb. run. rewrite He. reflexivity.
  - intros a s1 Hb. unfold clean_path_on_failure, try_except.
    rewrite Hb. reflexivity.
Qed.

(** C8 (as amended).  [rmtree(path)] is the walk of [shutil.rmtree] with
    [handle_remove_readonly] as its error callback.  When an operation of
    the walk fails with [EACCES] and it is [rmdir], [remove] or [unlink],
    the callback reads the mode of the failing path and adds the owner-write
    bit to it, then does the same for the parent directory.  When these two
    [stat] and two [chmod] calls have returned, it calls the operation on
    the path once more, exactly once; the walk goes on if that call returns
    and ends with its error if it fails.  When one of the four calls fails,
    [rmtree] ends with the error of that call and the operation is not
    tried again.  A failure of the walk with another [errno], or of another
    operation, ends [rmtree] with that error, with the machine as the
    failing operation left it. *)
Theorem rmtree_retries_permission_errors path s :
  (forall pre f p post s1 e' m1 e1 m2 e2 res e3,
     rmtree_plan path (env s) = pre ++ (f, p) :: post ->
     shutil_walk handle_remove_readonly pre s = (Ret tt, s1) ->
     os_call f p (env s1) = (OsErr EACCES, e') ->
     f ∈ [os_rmdir; os_remove; os_unlink] ->
     os_stat p e' = OsOk m1 ->
     os_chmod p (Z.lor m1 S_IWUSR) e' = (OsOk tt, e1) ->
     os_stat (os_path_dirname p) e1 = OsOk m2 ->
     os_chmod (os_path_dirname p) (Z.lor m2 S_IWUSR) e1 = (OsOk tt, e2) ->
     os_call f p e2 = (res, e3) ->
     let s3 :=
       {| log := log s1 ++ [EvCall f p;
                            EvStat p; EvChmod p (Z.lor m1 S_IWUSR);
                            EvStat (os_path_dirname p);
                            EvChmod (os_path_dirname p) (Z.lor m2 S_IWUSR);
                            EvCall f p];
          env := e3; ptys := ptys s1 |} in
     rmtree path s =
       match res with
       | OsOk _ => shutil_walk handle_remove_readonly post s3
       | OsErr n => (Raise (ExOSError n), s3)
       end /\
     Z.testbit (Z.lor m1 S_IWUSR) 7 = true /\
     Z.testbit (Z.lor m2 S_IWUSR) 7 = true /\
     (forall i, i <> 7%Z ->
        Z.testbit (Z.lor m1 S_IWUSR) i = Z.testbit m1 i /\
        Z.testbit (Z.lor m2 S_IWUSR) i = Z.testbit m2 i)) /\
  (forall pre f p post s1 e',
     rmtree_plan path (env s) = pre ++ (f, p) :: post ->
     shutil_walk handle_remove_readonly pre s = (Ret tt, s1) ->
     os_call f p (env s1) = (OsErr EACCES, e') ->
     f ∈ [os_rmdir; os_remove; os_unlink] ->
     let d := os_path_dirname p in
     let ends_with n calls e :=
       rmtree path s =
         (Raise (ExOSError n),
          {| log := log s1 ++ EvCall f p :: calls; env := e; ptys := ptys s1 |}) in
     (forall n,
        os_stat p e' = OsErr n ->
        ends_with n [EvStat p] e') /\
     (forall m1 n e1,
        os_stat p e' = OsOk m1 ->
        os_chmod p (Z.lor m1 S_IWUSR) e' = (OsErr n, e1) ->
        ends_with n [EvStat p; EvChmod p (Z.lor m1 S_IWUSR)] e1) /\
     (forall m1 e1 n,
        os_stat p e' = OsOk m1 ->
        os_chmod p (Z.lor m1 S_IWUSR) e' = (OsOk tt, e1) ->
        os_stat d e1 = OsErr n ->
        ends_with n [EvStat p; EvChmod p (Z.lor m1 S_IWUSR); EvStat d] e1) /\
     (forall m1 e1 m2 n e2,
        os_stat p e' = OsOk m1 ->
        os_chmod p (Z.lor m1 S_IWUSR) e' = (OsOk tt, e1) ->
        os_stat d e1 = OsOk m2 ->
        os_chmod d (Z.lor m2 S_IWUSR) e1 = (OsErr n, e2) ->
        ends_with n [EvStat p; EvChmod p (Z.lor m1 S_IWUSR);
                     EvStat d; EvChmod d (Z.lor m2 S_IWUSR)] e2)) /\
  (forall pre f p post s1 n e',
     rmtree_plan path (env s) = pre ++ (f, p) :: post ->
     shutil_walk handle_remove_readonly pre s = (Ret tt, s1) ->
     os_call f p (env s1) = (OsErr n, e') ->
     f ∉ [os_rmdir; os_remove; os_unlink] \/ n <> EACCES ->
     rmtree path s =
       (Raise (ExOSError n),
        {| log := log s1 ++ [EvCall f p]; env := e'; ptys := ptys s1 |})) /\
  (forall func p exc s1,
     func ∉ [os_rmdir; os_remove; os_unlink] \/ exc <> ExOSError EACCES ->
     handle_remove_readonly func p exc s1 = (Raise exc, s1)).
Proof.
  assert (Hbit : forall m i,
            Z.testbit (Z.lor m S_IWUSR) i = Z.testbit m i || (i =? 7)%Z).
  { intros m i. rewrite Z.lor_spec. change S_IWUSR with (2 ^ 7)%Z.
    rewrite Z.pow2_bits_eqb by lia. now rewrite (Z.eqb_sym 7). }
  split; [|split; [|split]].
  - intros pre f p post s1 e' m1 e1 m2 e2 res e3 H H0 H1 H2 H3 H4 H5 H6 H7 s3.
    split; [|split; [|split]].
    + unfold rmtree, shutil_rmtree. rewrite H, shutil_walk_app.
      rewrite (bind_Ret _ _ _ _ _ H0).
      rewrite (shutil_walk_step_err _ _ _ _ _ _ _ H1).
      pose proof (handle_remove_readonly_retry f p
                    {| log := log s1 ++ [EvCall f p]; env := e'; ptys := ptys s1 |}
                    m1 e1 m2 e2 res e3 H2 H3 H4 H5 H6 H7) as Hh.
      cbn [log env ptys] in Hh. rewrite <- app_assoc in Hh. cbn [app] in Hh.
      destruct res as [[]|n].
      * now rewrite (bind_Ret _ _ _ _ _ Hh).
      * now rewrite (bind_Raise _ _ _ _ _ Hh).
    + rewrite Hbit. now destruct (Z.testbit m1 7).
    + rewrite Hbit. now destruct (Z.testbit m2 7).
    + intros i Hi. split; rewrite Hbit;
        (destruct (Z.eqb_spec i 7); [lia|]); apply orb_false_r.
  - intros pre f p post s1 e' Hplan Hpre Hcall Hf d ends_with.
    subst d.
    assert (Hrun : forall n calls e,
              (foldr (fun p rest =>
                        mode ← os_stat_m p;
                        os_chmod_m p (Z.lor mode S_IWUSR);; rest)
                     (ret tt) [p; os_path_dirname p];;
               os_call_m f p)
                {| log := log s1 ++ [EvCall f p]; env := e'; ptys := ptys s1 |}
              = (Raise (ExOSError n),
                 {| log := (log s1 ++ [EvCall f p]) ++ calls;
                    env := e; ptys := ptys s1 |}) ->
              ends_with n calls e).
    { intros n calls e Hh. unfold ends_with.
      rewrite <- (handle_remove_readonly_clears _ _ _ Hf) in Hh.
      rewrite (rmtree_handler_raises _ _ _ _ _ _ _ _ _ _ _ Hplan Hpre Hcall Hh).
      now rewrite <- app_assoc. }
    cbn [foldr] in Hrun. split; [|split; [|split]].
    + intros n H1. apply Hrun. run. rewrite H1. reflexivity.
    + intros m1 n e1 H1 H2. apply Hrun. run. rewrite H1. run. rewrite H2. run.
      now rewrite <- app_assoc.
    + intros m1 e1 n H1 H2 H3. apply Hrun. run. rewrite H1. run. rewrite H2. run.
      rewrite H3. run. now rewrite <- !app_assoc.
    + intros m1 e1 m2 n e2 H1 H2 H3 H4. apply Hrun. run. rewrite H1. run.
      rewrite H2. run. rewrite H3. run. rewrite H4. run.
      now rewrite <- !app_assoc.
  - intros pre f p post s1 n e' Hplan Hpre Hcall Hother.
    apply (rmtree_handler_raises _ _ _ _ _ _ _ _ _ _ _ Hplan Hpre Hcall).
    apply handle_remove_readonly_reraise.
    destruct Hother as [Hf|Hn]; [now left|right; congruence].
  - intros func p exc s1. apply handle_remove_readonly_reraise.
Qed.

End Removal.

(** The small machine's walk ends with the removal of the top directory,
    and what it removes is gone. *)
Lemma Sim_plan_ends_with_rmdir : @plan_ends_with_rmdir Sim.platform.
Proof.
  intros path e. cbn. unfold Sim.plan.
  eexists ((os_scandir, path) :: _). reflexivity.
Qed.

Lemma Sim_lookup_file_filter path fs :
  Sim.lookup_file path
    (filter (fun e => negb (String.eqb (fst e) path)) fs) = None.
Proof.
  induction fs as [|[p mode] fs IH]; [reflexivity|].
  rewrite filter_cons. cbn [fst].
  destruct (String.eqb p path) eqn:E; cbn.
  - destruct (decide False) as [[]|_]. exact IH.
  - destruct (decide True) as [_|H]; [|now contradiction H].
    cbn. rewrite E. exact IH.
Qed.

Lemma Sim_rmdir_removes : @rmdir_removes Sim.platform.
Proof.
  intros path e e' H. cbn in *. unfold Sim.delete in H.
  destruct (Sim.lookup_file path (Sim.files e)) as [mode|]; [|discriminate].
  destruct (Z.testbit mode 7); [|discriminate].
  inversion H; subst. cbn. rewrite Sim_lookup_file_filter.
  apply bool_decide_eq_false_2. intros [x Hx]. discriminate.
Qed.

Lemma clean_path_on_failure_spec_witness :
  let after :=
    snd (rmtree "/tmp/d"
           (@Build_World Sim.platform [EvExists "/tmp/d"] Sim.boot [])) in
  let stuck := @Build_World Sim.platform [] SimLib.boot_dir [] in
  @os_path_exists Sim.platform "/tmp/d" Sim.boot = true /\
  clean_path_on_failure "/tmp/d" (raise (ExOther "boom")) Sim.world0
    = (Raise (ExOther "boom") : outcome unit, after) /\
  @os_path_exists Sim.platform "/tmp/d" (env after) = false /\
  clean_path_on_failure "d" (raise (ExOther "boom")) stuck
    = (Raise (ExOSError Sim.ENOENT) : outcome unit,
       @Build_World Sim.platform
         [EvExists "d"; EvCall os_scandir "d"; EvCall os_rmdir "d";
          EvStat "d"; EvChmod "d" 16877; EvStat EmptyString]
         (snd (Sim.chmod "d" 16877 SimLib.boot_dir)) []) /\
  clean_path_on_failure "/gone" (raise (ExOther "boom")) Sim.world0
    = (Raise (ExOther "boom") : outcome unit,
       @Build_World Sim.platform [EvExists "/gone"] Sim.boot []) /\
  clean_path_on_failure "/tmp/d" (ret 7%Z) Sim.world0 = (Ret 7%Z, Sim.world0).
Proof.
  intros after stuck.
  pose proof (clean_path_on_failure_spec (P := Sim.platform) (A := unit)
                "/tmp/d" (raise (ExOther "boom")) Sim.world0) as (H1 & _ & _).
  pose proof (clean_path_on_failure_spec (P := Sim.platform) (A := unit)
                "d" (raise (ExOther "boom")) stuck) as (H1' & _ & _).
  pose proof (clean_path_on_failure_spec (P := Sim.platform) (A := unit)
                "/gone" (raise (ExOther "boom")) Sim.world0) as (_ & H2 & _).
  pose proof (clean_path_on_failure_spec (P := Sim.platform)
                "/tmp/d" (ret 7%Z) Sim.world0) as (_ & _ & H3).
  destruct (H1 (ExOther "boom") Sim.world0 eq_refl eq_refl) as (Hret & _ & _).
  destruct (Hret after eq_refl) as (Hrun & Hgone).
  destruct (H1' (ExOther "boom") stuck eq_refl eq_refl) as (_ & Hraise & _).
  split; [reflexivity|]. split; [exact Hrun|].
  split; [exact (Hgone Sim_plan_ends_with_rmdir Sim_rmdir_removes)|].
  split; [apply Hraise; reflexivity|].
  split; [apply (H2 (ExOther "boom") Sim.world0); reflexivity|].
  apply (H3 7%Z Sim.world0); reflexivity.
Defined.

(** C7, as stated, fails: the scope raises, the path exists, and the first
    operation of the removal, the scan of the directory, is refused.  The
    exception that leaves is the [OSError] of the removal, not the scope's
    own, and the path is still there. *)
Lemma clean_path_on_failure_error_replaced :
  let s := SimLib.faulty_world None None (Some EACCES) in
  let run :=
    clean_path_on_failure "/tmp/d" (raise (ExOther "boom") : M unit) s in
  @os_path_exists (SimLib.faulty None None (Some EACCES)) "/tmp/d" (env s)
    = true /\
  run = (Raise (ExOSError EACCES),
         @Build_World (SimLib.faulty None None (Some EACCES))
           [EvExists "/tmp/d"; EvCall os_scandir "/tmp/d"] Sim.boot []) /\
  (forall s', run <> (Raise (ExOther "boom"), s')) /\
  @os_path_exists (SimLib.faulty None None (Some EACCES)) "/tmp/d"
    (env (snd run)) = true.
Proof.
  intros s run. split; [reflexivity|]. split; [reflexivity|].
  split; [intros s'; discriminate|reflexivity].
Qed.

Lemma rmtree_retries_permission_errors_witness :
  let s1 := @Build_World Sim.platform [EvCall os_scandir "/tmp/d"] Sim.boot [] in
  let e3 := snd (Sim.delete "/tmp/d/ro"
                   (snd (Sim.chmod "/tmp/d/ro" 33188 Sim.boot))) in
  @os_call Sim.platform os_unlink "/tmp/d/ro" Sim.boot = (OsErr EACCES, Sim.boot) /\
  rmtree "/tmp/d" Sim.world0 =
    shutil_walk handle_remove_readonly [(os_rmdir, "/tmp/d")]
      (@Build_World Sim.platform
         [EvCall os_scandir "/tmp/d"; EvCall os_unlink "/tmp/d/ro";
          EvStat "/tmp/d/ro"; EvChmod "/tmp/d/ro" 33188;
          EvStat "/tmp/d"; EvChmod "/tmp/d" 16877;
          EvCall os_unlink "/tmp/d/ro"] e3 []) /\
  fst (rmtree "/tmp/d" Sim.world0) = Ret tt /\
  Sim.files (env (snd (rmtree "/tmp/d" Sim.world0))) = [("/tmp", 17407%Z)] /\
  rmtree "d" (@Build_World Sim.platform [] SimLib.boot_dir []) =
    (Raise (ExOSError Sim.ENOENT),
     @Build_World Sim.platform
       [EvCall os_scandir "d"; EvCall os_rmdir "d";
        EvStat "d"; EvChmod "d" 16877; EvStat EmptyString]
       (snd (Sim.chmod "d" 16877 SimLib.boot_dir)) []).
Proof.
  intros s1 e3. split; [reflexivity|].
  split; [|split; [reflexivity|split; [reflexivity|]]].
  - apply (proj1 (rmtree_retries_permission_errors (P := Sim.platform)
                    "/tmp/d" Sim.world0)
             [(os_scandir, "/tmp/d")] os_unlink "/tmp/d/ro" [(os_rmdir, "/tmp/d")]
             s1 Sim.boot 33060%Z (snd (Sim.chmod "/tmp/d/ro" 33188 Sim.boot))
             16877%Z (snd (Sim.chmod "/tmp/d/ro" 33188 Sim.boot))
             (OsOk tt) e3);
      try reflexivity.
    set_solver.
  - assert (Hf : os_rmdir ∈ [os_rmdir; os_remove; os_unlink]) by set_solver.
    pose proof (proj1 (proj2 (rmtree_retries_permission_errors
                                (P := Sim.platform) "d"
                                (@Build_World Sim.platform [] SimLib.boot_dir [])))
                  [(os_scandir, "d")] os_rmdir "d" []
                  (@Build_World Sim.platform [EvCall os_scandir "d"]
                     SimLib.boot_dir [])
                  SimLib.boot_dir eq_refl eq_refl eq_refl Hf) as H.
    cbn zeta in H. destruct H as (_ & _ & H & _).
    apply (H 16749%Z (snd (Sim.chmod "d" 16877 SimLib.boot_dir)) Sim.ENOENT);
      reflexivity.
Defined.

(** C8, as stated, fails for a path of one component.  The directory [d]
    is read-only, so [rmdir] fails with [EACCES]; the callback makes [d]
    writable and turns to the parent directory, whose name is the empty
    string; [stat] fails on it, and [rmtree] ends with that error.  The
    mode of the parent is not changed, [rmdir] is not called a second time,
    and [d] is still there. *)
Lemma rmtree_one_component_not_retried :
  let s := @Build_World Sim.platform [] SimLib.boot_dir [] in
  @rmtree_plan Sim.platform "d" SimLib.boot_dir
    = [(os_scandir, "d"); (os_rmdir, "d")] /\
  @os_call Sim.platform os_rmdir "d" SimLib.boot_dir
    = (OsErr EACCES, SimLib.boot_dir) /\
  @os_path_dirname Sim.platform "d" = EmptyString /\
  rmtree "d" s =
    (Raise (ExOSError Sim.ENOENT),
     @Build_World Sim.platform
       [EvCall os_scandir "d"; EvCall os_rmdir "d";
        EvStat "d"; EvChmod "d" 16877; EvStat EmptyString]
       (snd (Sim.chmod "d" 16877 SimLib.boot_dir)) []) /\
  List.length
    (List.filter (fun ev => match ev with
                            | EvCall os_rmdir _ => true
                            | _ => false
                            end)
       (log (snd (rmtree "d" s)))) = 1%nat /\
  @os_path_exists Sim.platform "d" (env (snd (rmtree "d" s))) = true.
Proof.
  intros s. repeat split.
Qed.

Section Pty_runner.
Context `{P : Platform}.

Lemma store_last_lookup (l : list Pty) x : (l ++ [x]) !! length l = Some x.
Proof. now apply list_lookup_middle. Qed.

Lemma store_last_insert (l : list Pty) x y :
  <[length l := y]> (l ++ [x]) = l ++ [y].
Proof. rewrite insert_app_r_alt by lia. now rewrite Nat.sub_diag. Qed.

(** The loop asks for 4096 bytes, once per chunk and once more; it ends
    with the chunks appended to the buffer, in order, or with the error of
    the last read when that is not [EIO]. *)
Lemma read_loop_drains fd e chunks last e' :
  drains fd e chunks last e' ->
  forall fuel buf lg pt,
    (length chunks < fuel)%nat ->
    read_loop fuel fd buf {| log := lg; env := e; ptys := pt |} =
    (drained buf chunks last,
     {| log := lg ++ repeat (EvRead fd 4096) (S (length chunks));
        env := e'; ptys := pt |}).
Proof.
  induction 1 as [e e' Hr|e n e' Hr|e c cs e1 chunks last e2 Hr Hd IH];
    intros fuel buf lg pt Hfuel;
    (destruct fuel as [|fuel]; [cbn in Hfuel; lia|]);
    cbn [read_loop]; run; rewrite Hr; run.
  - cbn. now rewrite !app_nil_r.
  - cbn. rewrite app_nil_r. destruct (n =? EIO)%Z; reflexivity.
  - rewrite IH by (cbn in Hfuel; lia).
    rewrite <- app_assoc. cbn [length repeat app concat].
    f_equal. unfold drained. rewrite <- !app_assoc. reflexivity.
Qed.

Lemma Pty_enter s fd_r fd_w e2 :
  openpty (env s) = (OsOk (fd_r, fd_w), e2) ->
  let attrs := tcgetattr fd_r e2 in
  let attrs' :=
    {| iflag := iflag attrs;
       oflag := Z.land (oflag attrs) (Z.lnot (Z.lor ONLCR OPOST));
       cflag := cflag attrs; lflag := lflag attrs;
       ispeed := ispeed attrs; ospeed := ospeed attrs; cc := cc attrs |} in
  (self ← Pty__init__; Pty__enter__ self) s =
    (Ret (length (ptys s)),
     {| log := log s ++ [EvOpenpty; EvTcgetattr fd_r; EvTcsetattr fd_r attrs'];
        env := tcsetattr fd_r attrs' e2;
        ptys := ptys s ++ [{| r := Some fd_r; w := Some fd_w |}] |}).
Proof.
  intros Ho attrs attrs'. unfold Pty__init__, Pty__enter__, set_pty. run.
  rewrite Ho. run. rewrite store_last_lookup, store_last_insert. run.
  rewrite <- !app_assoc. reflexivity.
Qed.

(** [__exit__] after the body has closed the write end. *)
Lemma Pty_exit_after_close_w lg e pt fd_r :
  Pty__exit__ (length pt)
    {| log := lg; env := e; ptys := pt ++ [{| r := Some fd_r; w := None |}] |} =
  (Ret tt,
   {| log := lg ++ [EvClose fd_r]; env := os_close fd_r e;
      ptys := pt ++ [{| r := None; w := None |}] |}).
Proof.
  unfold Pty__exit__.
  erewrite bind_Ret; [|eapply close_w_closed; [apply store_last_lookup|reflexivity]].
  erewrite close_r_open; [|apply store_last_lookup|reflexivity].
  cbn [log env ptys r w]. now rewrite store_last_insert.
Qed.

(** C5.  A call of [cmd_output_p] within its contract, whose executable is
    found and whose process starts: every read of the pty asks for 4096
    bytes; the chunks read are appended in order until a read gives no
    bytes or fails.  An empty read, or a failure with [EIO], ends the loop
    normally, and the call returns the exit code of [wait()], the
    accumulated bytes, and [None] for stderr.  A failure with any other
    [errno] leaves the call as that [OSError], after both ends of the pty
    and the null input have been closed, and without waiting. *)
Theorem cmd_output_p_reads fuel argv kwargs s argv' devnull e1 fd_r fd_w e2
    proc e4 chunks last e6 :
  kwargs !! "stderr" = Some STDOUT ->
  normalize_cmd argv (env s) = Resolved argv' ->
  open_devnull (env s) = (OsOk devnull, e1) ->
  openpty e1 = (OsOk (fd_r, fd_w), e2) ->
  let attrs := tcgetattr fd_r e2 in
  let attrs' :=
    {| iflag := iflag attrs;
       oflag := Z.land (oflag attrs) (Z.lnot (Z.lor ONLCR OPOST));
       cflag := cflag attrs; lflag := lflag attrs;
       ispeed := ispeed attrs; ospeed := ospeed attrs; cc := cc attrs |} in
  let kwargs' :=
    <["stderr" := PInt fd_w]>
      (<["stdout" := PInt fd_w]>
         (<["stdin" := PFile devnull]> (_setdefault_kwargs kwargs))) in
  Popen argv' kwargs' (tcsetattr fd_r attrs' e2) = (OsOk proc, e4) ->
  drains fd_r (os_close fd_w e4) chunks last e6 ->
  (length chunks < fuel)%nat ->
  let e8 := file_close devnull (os_close fd_r e6) in
  let events :=
    [EvNormalize argv; EvOpenDevnull; EvOpenpty; EvTcgetattr fd_r;
     EvTcsetattr fd_r attrs'; EvPopen argv' kwargs'; EvClose fd_w]
    ++ repeat (EvRead fd_r 4096) (S (length chunks))
    ++ [EvClose fd_r; EvFileClose devnull] in
  let closed := ptys s ++ [{| r := None; w := None |}] in
  let normal :=
    (Ret (fst (wait proc e8), Some (concat chunks), None),
     {| log := log s ++ events ++ [EvWait proc];
        env := snd (wait proc e8); ptys := closed |}) in
  cmd_output_p fuel argv None kwargs s =
    match last with
    | OsOk _ => normal
    | OsErr n =>
      if (n =? EIO)%Z then normal
      else (Raise (ExOSError n),
            {| log := log s ++ events; env := e8; ptys := closed |})
    end.
Proof.
  intros Hk Hn Hd Ho attrs attrs' kwargs' Hp Hr Hfuel e8 events closed normal.
  unfold cmd_output_p. rewrite Hk.
  rewrite !bool_decide_eq_true_2 by reflexivity.
  unfold with_. run. rewrite bool_decide_eq_true_2 by reflexivity. run.
  rewrite Hn. run. rewrite Hd. run.
  pose proof (Pty_enter
                {| log := (log s ++ [EvNormalize argv]) ++ [EvOpenDevnull];
                   env := e1; ptys := ptys s |} fd_r fd_w e2 Ho) as He.
  cbn zeta in He. fold attrs attrs' in He. cbn [log env ptys] in He.
  unfold mbind, M_bind, bind in He. rewrite He. clear He.
  unfold get_pty. run. rewrite store_last_lookup. run.
  cbn [r w pyval_of_fd]. run. fold kwargs'. rewrite Hp. run.
  erewrite close_w_open; [|apply store_last_lookup|reflexivity].
  run. cbn [r w]. rewrite store_last_insert.
  rewrite (read_loop_drains _ _ _ _ _ Hr) by exact Hfuel.
  destruct last as [bts|n]; unfold drained in *; cbn [app] in *.
  - rewrite Pty_exit_after_close_w. run.
    subst normal events closed e8. destruct (wait proc _) as [rc e9].
    cbn [fst snd]. repeat first [rewrite <- app_assoc | progress cbn [app]].
    reflexivity.
  - destruct (n =? EIO)%Z.
    + rewrite Pty_exit_after_close_w. run.
      subst normal events closed e8. destruct (wait proc _) as [rc e9].
      cbn [fst snd]. repeat first [rewrite <- app_assoc | progress cbn [app]].
      reflexivity.
    + rewrite Pty_exit_after_close_w. run.
      subst events closed e8.
      repeat first [rewrite <- app_assoc | progress cbn [app]]. reflexivity.
Qed.

End Pty_runner.

Lemma cmd_output_p_reads_witness :
  let e6 := {| Sim.files := Sim.files Sim.boot; Sim.reads := [];
               Sim.procs := [["/bin/echo"; "hi"]]; Sim.next_fd := 5 |} in
  drains (P := Sim.platform) 3
    {| Sim.files := Sim.files Sim.boot; Sim.reads := Sim.reads Sim.boot;
       Sim.procs := [["/bin/echo"; "hi"]]; Sim.next_fd := 5 |}
    [Sim.b "a"; Sim.b "b"] (OsOk []) e6 /\
  fst (cmd_output_p 8 ["echo"; "hi"] None {["stderr" := STDOUT]} Sim.world0)
    = Ret (0%Z, Some (Sim.b "ab"), None) /\
  List.filter (fun ev => match ev with EvRead _ _ => true | _ => false end)
         (log (snd (cmd_output_p 8 ["echo"; "hi"] None {["stderr" := STDOUT]}
                      Sim.world0)))
    = [EvRead 3 4096; EvRead 3 4096; EvRead 3 4096].
Proof.
  intros e6.
  assert (Hd : drains (P := Sim.platform) 3
                 {| Sim.files := Sim.files Sim.boot; Sim.reads := Sim.reads Sim.boot;
                    Sim.procs := [["/bin/echo"; "hi"]]; Sim.next_fd := 5 |}
                 [Sim.b "a"; Sim.b "b"] (OsOk []) e6).
  { eapply drains_chunk; [reflexivity|].
    eapply drains_chunk; [reflexivity|].
    apply drains_eof. reflexivity. }
  split; [exact Hd|].
  rewrite (cmd_output_p_reads (P := Sim.platform) 8 ["echo"; "hi"]
             {["stderr" := STDOUT]} Sim.world0 ["/bin/echo"; "hi"] 0%nat Sim.boot
             3%Z 4%Z (snd (Sim.new_pty Sim.boot)) 0%nat
             {| Sim.files := Sim.files Sim.boot; Sim.reads := Sim.reads Sim.boot;
                Sim.procs := [["/bin/echo"; "hi"]]; Sim.next_fd := 5 |}
             [Sim.b "a"; Sim.b "b"] (OsOk []) e6);
    [split; reflexivity
    | vm_compute; reflexivity | reflexivity | reflexivity | reflexivity
    | reflexivity | exact Hd | cbn; lia].
Defined.

(** * More properties of [util.py] *)

(** ** Keyword defaults *)

Lemma setdefault_lookup a v (kwargs : gmap string pyval) k :
  setdefault a v kwargs !! k =
  match kwargs !! k with
  | Some x => Some x
  | None => if decide (a = k) then Some v else None
  end.
Proof.
  unfold setdefault. destruct (kwargs !! a) as [x|] eqn:Ha.
  - destruct (kwargs !! k) as [y|] eqn:Hk; [reflexivity|].
    destruct (decide (a = k)) as [->|]; [congruence|reflexivity].
  - rewrite lookup_insert. destruct (decide (a = k)) as [->|].
    + now rewrite Ha.
    + now destruct (kwargs !! k).
Qed.

(** X1.  After [_setdefault_kwargs], every keyword the caller gave keeps
    its value (a [None] included), each of [stdin], [stdout], [stderr]
    that was missing is [subprocess.PIPE], and no other key appears. *)
Theorem setdefault_kwargs_lookup (kwargs : gmap string pyval) k :
  _setdefault_kwargs kwargs !! k =
  match kwargs !! k with
  | Some v => Some v
  | None =>
    if bool_decide (k ∈ ["stdin"; "stdout"; "stderr"]) then Some PIPE else None
  end.
Proof.
  unfold _setdefault_kwargs. cbn [foldl]. rewrite !setdefault_lookup.
  destruct (kwargs !! k) as [v|]; [reflexivity|].
  destruct (decide ("stdin" = k)) as [<-|H1]; [reflexivity|].
  destruct (decide ("stdout" = k)) as [<-|H2]; [reflexivity|].
  destruct (decide ("stderr" = k)) as [<-|H3]; [reflexivity|].
  rewrite bool_decide_eq_false_2; [reflexivity|].
  rewrite !elem_of_cons, elem_of_nil. intros [E|[E|[E|[]]]]; congruence.
Qed.

(** X2.  [_setdefault_kwargs] changes nothing when the caller has given
    all three streams, and it is idempotent. *)
Theorem setdefault_kwargs_idempotent (kwargs : gmap string pyval) :
  _setdefault_kwargs (_setdefault_kwargs kwargs) = _setdefault_kwargs kwargs /\
  (is_Some (kwargs !! "stdin") -> is_Some (kwargs !! "stdout") ->
   is_Some (kwargs !! "stderr") -> _setdefault_kwargs kwargs = kwargs).
Proof.
  assert (Hfull : forall kw : gmap string pyval,
            is_Some (kw !! "stdin") -> is_Some (kw !! "stdout") ->
            is_Some (kw !! "stderr") -> _setdefault_kwargs kw = kw).
  { intros kw [a Ha] [c Hc] [d Hd]. unfold _setdefault_kwargs, setdefault.
    cbn [foldl]. now rewrite Ha, Hc, Hd. }
  split; [|apply Hfull].
  apply Hfull; unfold _setdefault_kwargs; cbn [foldl];
    rewrite !setdefault_lookup.
  - destruct (kwargs !! "stdin"); [eauto|].
    destruct (decide ("stdin" = "stdin")); [eauto|congruence].
  - destruct (kwargs !! "stdout"); [eauto|].
    destruct (decide ("stdin" = "stdout")); [eauto|].
    destruct (decide ("stdout" = "stdout")); [eauto|congruence].
  - destruct (kwargs !! "stderr"); [eauto|].
    destruct (decide ("stdin" = "stderr")); [eauto|].
    destruct (decide ("stdout" = "stderr")); [eauto|].
    destruct (decide ("stderr" = "stderr")); [eauto|congruence].
Qed.

Lemma setdefault_kwargs_idempotent_witness :
  _setdefault_kwargs
    ({["stdin" := PNone; "stdout" := PIPE; "stderr" := STDOUT]} : gmap string pyval)
  = {["stdin" := PNone; "stdout" := PIPE; "stderr" := STDOUT]}.
Proof.
  apply (proj2 (setdefault_kwargs_idempotent
                  {["stdin" := PNone; "stdout" := PIPE; "stderr" := STDOUT]}));
    vm_compute; eauto.
Defined.

(** ** The runners: failures *)

Section Runner_more.
Context `{P : Platform}.

(** X3.  When the executable is found but the process cannot be started,
    [cmd_output_b] raises the [OSError] of [Popen], whatever [retcode] is:
    the failure is never turned into a [CalledProcessError], and nothing is
    called after the failed spawn. *)
Theorem cmd_output_b_spawn_failure cmd retcode kwargs s cmd' n e1 :
  normalize_cmd cmd (env s) = Resolved cmd' ->
  Popen cmd' (_setdefault_kwargs kwargs) (env s) = (OsErr n, e1) ->
  cmd_output_b cmd retcode kwargs s =
    (Raise (ExOSError n),
     {| log := log s ++ [EvNormalize cmd;
                         EvPopen cmd' (_setdefault_kwargs kwargs)];
        env := e1; ptys := ptys s |}).
Proof.
  intros Hn Hp. unfold cmd_output_b. run. rewrite Hn. run. rewrite Hp. run.
  now rewrite <- app_assoc.
Qed.

(** X4.  Every [CalledProcessError] that leaves [cmd_output_b] was asked
    for and is consistent: an expectation was supplied, it is the error's
    [expected_returncode], the error's [returncode] differs from it, the
    [args] tuple repeats the five attributes, and [cmd] is the resolver's
    output or, when the executable was not found, the caller's command. *)
Theorem cmd_output_b_error_invariant argv retcode kwargs s exc s' :
  cmd_output_b argv retcode kwargs s = (Raise (ExCalledProcessError exc), s') ->
  retcode = Some (expected_returncode exc) /\
  returncode exc <> expected_returncode exc /\
  args exc = (returncode exc, cmd exc, expected_returncode exc,
              stdout exc, stderr exc) /\
  match normalize_cmd argv (env s) with
  | Resolved argv' => cmd exc = argv'
  | ExecutableNotFound (rc, out, err) =>
    cmd exc = argv /\ returncode exc = rc /\ stdout exc = out /\ stderr exc = err
  end.
Proof.
  unfold cmd_output_b. run.
  destruct (normalize_cmd argv (env s)) as [argv'|[[rc out] err]]; run.
  - destruct (Popen argv' (_setdefault_kwargs kwargs) (env s)) as [[proc|n] e1];
      run; [|discriminate].
    destruct (communicate proc e1) as [[out err] e2]. run.
    destruct retcode as [expected|]; [|discriminate].
    destruct (Z.eqb_spec expected (proc_returncode proc e2)) as [|Hne];
      cbn [negb]; intros H; inversion H; subst; clear H.
    cbn. repeat split; congruence.
  - destruct retcode as [expected|]; [|discriminate].
    destruct (Z.eqb_spec expected rc) as [|Hne];
      cbn [negb]; intros H; inversion H; subst; clear H.
    cbn. repeat split; congruence.
Qed.

(** X5.  [cmd_output] calls nothing that [cmd_output_b] does not: the
    world after it is the world after [cmd_output_b], also when decoding
    fails; and whenever it returns, [cmd_output_b] had returned the same
    exit code and streams that decode to the returned texts. *)
Theorem cmd_output_same_world cmd retcode kwargs s :
  snd (cmd_output cmd retcode kwargs s) = snd (cmd_output_b cmd retcode kwargs s) /\
  (forall rc tout terr s',
     cmd_output cmd retcode kwargs s = (Ret (rc, tout, terr), s') ->
     exists out err,
       cmd_output_b cmd retcode kwargs s = (Ret (rc, out, err), s') /\
       utf8_text_of out = Some tout /\ utf8_text_of err = Some terr).
Proof.
  unfold cmd_output, mbind, M_bind, bind.
  destruct (cmd_output_b cmd retcode kwargs s) as [[[[rc out] err]|e|] s1];
    [|split; [reflexivity|discriminate]..].
  assert (Hd : forall stream s0,
             decode_if_present stream s0 =
             (match utf8_text_of stream with
              | Some t => Ret t
              | None => Raise ExUnicodeDecodeError
              end, s0)).
  { intros [bs|] s0; cbn; [|reflexivity]. now destruct (decode_utf8 bs). }
  rewrite (Hd out). destruct (utf8_text_of out) as [tout|] eqn:Ho;
    [|split; [reflexivity|discriminate]].
  rewrite (Hd err). destruct (utf8_text_of err) as [terr|] eqn:He;
    [|split; [reflexivity|discriminate]].
  split; [reflexivity|].
  intros rc' tout' terr' s' H. inversion H; subst. eauto.
Qed.

End Runner_more.

Lemma cmd_output_b_spawn_failure_witness :
  cmd_output_b ["echo"; "hi"] None ∅ (SimLib.faulty_world (Some 8%Z) None None) =
    (Raise (ExOSError 8),
     @Build_World (SimLib.faulty (Some 8%Z) None None)
       [EvNormalize ["echo"; "hi"];
        EvPopen ["/bin/echo"; "hi"] (_setdefault_kwargs ∅)]
       Sim.boot []).
Proof.
  apply (cmd_output_b_spawn_failure (P := SimLib.faulty (Some 8%Z) None None)
           ["echo"; "hi"] None ∅ (SimLib.faulty_world (Some 8%Z) None None)
           ["/bin/echo"; "hi"] 8%Z Sim.boot);
    reflexivity.
Defined.

Lemma cmd_output_b_error_invariant_witness :
  let exc := CalledProcessError__init__ 1 ["/bin/false"] 0 (Some []) (Some []) in
  fst (cmd_output_b ["false"] (Some 0%Z) ∅ Sim.world0)
    = Raise (ExCalledProcessError exc) /\
  returncode exc <> expected_returncode exc /\
  cmd exc = ["/bin/false"].
Proof.
  intros exc.
  destruct (cmd_output_b_error_invariant (P := Sim.platform)
              ["false"] (Some 0%Z) ∅ Sim.world0 exc
              (snd (cmd_output_b ["false"] (Some 0%Z) ∅ Sim.world0)) eq_refl)
    as (_ & Hne & _ & Hcmd).
  split; [reflexivity|]. split; [exact Hne|exact Hcmd].
Defined.

Lemma cmd_output_same_world_witness :
  exists out err,
    cmd_output_b ["echo"; "hi"] retcode_default ∅ Sim.world0
      = (Ret (0%Z, out, err),
         snd (cmd_output ["echo"; "hi"] retcode_default ∅ Sim.world0)) /\
    utf8_text_of out = Some (Some [104%Z; 105%Z; 10%Z]) /\
    utf8_text_of err = Some (Some []).
Proof.
  apply (proj2 (cmd_output_same_world (P := Sim.platform)
                  ["echo"; "hi"] retcode_default ∅ Sim.world0)).
  reflexivity.
Defined.

(** ** The pty session and the pty runner *)

Section Pty_more.
Context `{P : Platform}.

(** X7.  [Pty.__enter__] stores the two descriptors of [openpty] and sets
    the terminal attributes of the read end once: in the output flags the
    bits of [ONLCR] and [OPOST] are cleared and every other bit is kept, and
    the input, control and local flags, the speeds and the control
    characters are those [tcgetattr] gave. *)
Theorem Pty_enter_output_flags s fd_r fd_w e2 :
  openpty (env s) = (OsOk (fd_r, fd_w), e2) ->
  exists attrs',
    (self ← Pty__init__; Pty__enter__ self) s =
      (Ret (length (ptys s)),
       {| log := log s ++ [EvOpenpty; EvTcgetattr fd_r; EvTcsetattr fd_r attrs'];
          env := tcsetattr fd_r attrs' e2;
          ptys := ptys s ++ [{| r := Some fd_r; w := Some fd_w |}] |}) /\
    (forall i, (0 <= i)%Z ->
       Z.testbit (oflag attrs') i =
       Z.testbit (oflag (tcgetattr fd_r e2)) i
       && negb (Z.testbit ONLCR i) && negb (Z.testbit OPOST i)) /\
    Z.land (oflag attrs') ONLCR = 0%Z /\
    Z.land (oflag attrs') OPOST = 0%Z /\
    iflag attrs' = iflag (tcgetattr fd_r e2) /\
    cflag attrs' = cflag (tcgetattr fd_r e2) /\
    lflag attrs' = lflag (tcgetattr fd_r e2) /\
    ispeed attrs' = ispeed (tcgetattr fd_r e2) /\
    ospeed attrs' = ospeed (tcgetattr fd_r e2) /\
    cc attrs' = cc (tcgetattr fd_r e2).
Proof.
  intros Ho. pose proof (Pty_enter s fd_r fd_w e2 Ho) as H. cbn zeta in H.
  eexists. split; [exact H|]. cbn [iflag oflag cflag lflag ispeed ospeed cc].
  assert (Hbit : forall i, (0 <= i)%Z ->
            Z.testbit (Z.land (oflag (tcgetattr fd_r e2))
                         (Z.lnot (Z.lor ONLCR OPOST))) i =
            Z.testbit (oflag (tcgetattr fd_r e2)) i
            && negb (Z.testbit ONLCR i) && negb (Z.testbit OPOST i)).
  { intros i Hi. rewrite Z.land_spec, Z.lnot_spec, Z.lor_spec by assumption.
    rewrite negb_orb. apply andb_assoc. }
  repeat split; try reflexivity.
  - exact Hbit.
  - apply Z.bits_inj'. intros i Hi.
    rewrite Z.land_spec, Hbit, Z.bits_0 by assumption.
    destruct (Z.testbit ONLCR i); [|apply andb_false_r].
    cbn. now rewrite andb_false_r.
  - apply Z.bits_inj'. intros i Hi.
    rewrite Z.land_spec, Hbit, Z.bits_0 by assumption.
    destruct (Z.testbit OPOST i); [|apply andb_false_r].
    cbn. now rewrite andb_false_r.
Qed.

End Pty_more.

Lemma Pty_enter_output_flags_witness :
  exists attrs',
    (self ← Pty__init__; Pty__enter__ self) Sim.world0 =
      (Ret 0%nat,
       @Build_World Sim.platform
         [EvOpenpty; EvTcgetattr 3; EvTcsetattr 3 attrs']
         (snd (Sim.new_pty Sim.boot)) [{| r := Some 3%Z; w := Some 4%Z |}]) /\
    oflag attrs' = 0%Z.
Proof.
  destruct (Pty_enter_output_flags (P := Sim.platform) Sim.world0 3%Z 4%Z
              (snd (Sim.new_pty Sim.boot)) eq_refl)
    as (attrs' & Hrun & _).
  exists attrs'. split; [exact Hrun|].
  injection Hrun as <-. reflexivity.
Defined.

Section Pty_runner_more.
Context `{P : Platform}.

Lemma Pty_enter_failure s n e2 :
  openpty (env s) = (OsErr n, e2) ->
  (self ← Pty__init__; Pty__enter__ self) s =
    (Raise (ExOSError n),
     {| log := log s ++ [EvOpenpty]; env := e2;
        ptys := ptys s ++ [{| r := None; w := None |}] |}).
Proof.
  intros Ho. unfold Pty__init__, Pty__enter__. run. rewrite Ho. reflexivity.
Qed.

(** [__exit__] when the body has not closed the write end. *)
Lemma Pty_exit_open lg e pt fd_r fd_w :
  Pty__exit__ (length pt)
    {| log := lg; env := e;
       ptys := pt ++ [{| r := Some fd_r; w := Some fd_w |}] |} =
  (Ret tt,
   {| log := lg ++ [EvClose fd_w; EvClose fd_r];
      env := os_close fd_r (os_close fd_w e);
      ptys := pt ++ [{| r := None; w := None |}] |}).
Proof.
  unfold Pty__exit__.
  erewrite bind_Ret; [|eapply close_w_open; [apply store_last_lookup|reflexivity]].
  cbn [log env ptys r w]. rewrite store_last_insert.
  erewrite close_r_open; [|apply store_last_lookup|reflexivity].
  cbn [log env ptys r w]. rewrite store_last_insert, <- app_assoc. reflexivity.
Qed.

(** The reading loop leaves the store of [Pty] objects alone and raises
    nothing but [OSError]. *)
Lemma read_loop_frame fuel fd :
  forall buf s o s',
    read_loop fuel fd buf s = (o, s') ->
    ptys s' = ptys s /\
    match o with
    | Raise e => is_OSError e
    | _ => True
    end.
Proof.
  induction fuel as [|fuel IH]; intros buf s o s' H.
  - inversion H; subst. split; [reflexivity|exact I].
  - cbn [read_loop] in H. run.
    destruct (os_read fd 4096 (env s)) as [[bts|n] e1].
    + destruct bts as [|c cs].
      * inversion H; subst. split; [reflexivity|exact I].
      * apply IH in H. exact H.
    + destruct (n =? EIO)%Z.
      * inversion H; subst. split; [reflexivity|exact I].
      * inversion H; subst. split; [reflexivity|now exists n].
Qed.

(** [cmd_output_p] once the executable is found and the null input and
    the pty are open: the spawn, then the loop, then the two [with]
    exits, then [wait]. *)
Lemma cmd_output_p_session fuel argv kwargs s argv' devnull e1 fd_r fd_w e2 :
  kwargs !! "stderr" = Some STDOUT ->
  normalize_cmd argv (env s) = Resolved argv' ->
  open_devnull (env s) = (OsOk devnull, e1) ->
  openpty e1 = (OsOk (fd_r, fd_w), e2) ->
  let attrs := tcgetattr fd_r e2 in
  let attrs' :=
    {| iflag := iflag attrs;
       oflag := Z.land (oflag attrs) (Z.lnot (Z.lor ONLCR OPOST));
       cflag := cflag attrs; lflag := lflag attrs;
       ispeed := ispeed attrs; ospeed := ospeed attrs; cc := cc attrs |} in
  let kwargs' :=
    <["stderr" := PInt fd_w]>
      (<["stdout" := PInt fd_w]>
         (<["stdin" := PFile devnull]> (_setdefault_kwargs kwargs))) in
  let opened :=
    log s ++ [EvNormalize argv; EvOpenDevnull; EvOpenpty; EvTcgetattr fd_r;
              EvTcsetattr fd_r attrs'; EvPopen argv' kwargs'] in
  let closed := ptys s ++ [{| r := None; w := None |}] in
  cmd_output_p fuel argv None kwargs s =
    match Popen argv' kwargs' (tcsetattr fd_r attrs' e2) with
    | (OsErr n, e4) =>
      (Raise (ExOSError n),
       {| log := opened ++ [EvClose fd_w; EvClose fd_r; EvFileClose devnull];
          env := file_close devnull (os_close fd_r (os_close fd_w e4));
          ptys := closed |})
    | (OsOk proc, e4) =>
      match read_loop fuel fd_r []
              {| log := opened ++ [EvClose fd_w]; env := os_close fd_w e4;
                 ptys := ptys s ++ [{| r := Some fd_r; w := None |}] |} with
      | (Ret buf, s1) =>
        let e8 := file_close devnull (os_close fd_r (env s1)) in
        (Ret (fst (wait proc e8), Some buf, None),
         {| log := log s1 ++ [EvClose fd_r; EvFileClose devnull; EvWait proc];
            env := snd (wait proc e8); ptys := closed |})
      | (Raise e, s1) =>
        (Raise e,
         {| log := log s1 ++ [EvClose fd_r; EvFileClose devnull];
            env := file_close devnull (os_close fd_r (env s1));
            ptys := closed |})
      | (Bottom, s1) => (Bottom, s1)
      end
    end.
Proof.
  intros Hk Hn Hd Ho attrs attrs' kwargs' opened closed.
  unfold cmd_output_p. rewrite Hk.
  rewrite !bool_decide_eq_true_2 by reflexivity.
  unfold with_. run. rewrite bool_decide_eq_true_2 by reflexivity. run.
  rewrite Hn. run. rewrite Hd. run.
  pose proof (Pty_enter
                {| log := (log s ++ [EvNormalize argv]) ++ [EvOpenDevnull];
                   env := e1; ptys := ptys s |} fd_r fd_w e2 Ho) as He.
  cbn zeta in He. fold attrs attrs' in He. cbn [log env ptys] in He.
  unfold mbind, M_bind, bind in He. rewrite He. clear He.
  unfold get_pty. run. rewrite store_last_lookup. run.
  cbn [r w pyval_of_fd]. run. fold kwargs'.
  destruct (Popen argv' kwargs' (tcsetattr fd_r attrs' e2)) as [[proc|n] e4]; run.
  - erewrite close_w_open; [|apply store_last_lookup|reflexivity].
    run. cbn [r w]. rewrite store_last_insert.
    subst opened. repeat first [rewrite <- app_assoc | progress cbn [app]].
    match goal with
    | |- context [read_loop fuel fd_r [] ?S] =>
      destruct (read_loop fuel fd_r [] S) as [o s1] eqn:Hr
    end.
    destruct (read_loop_frame _ _ _ _ _ _ Hr) as [Hpt _].
    destruct s1 as [lg1 en1 pt1]. cbn [ptys log env] in *. subst pt1.
    destruct o as [buf|e|];
      [rewrite Pty_exit_after_close_w|rewrite Pty_exit_after_close_w|reflexivity];
      run.
    + subst closed. destruct (wait proc _) as [rc e9]. cbn [fst snd].
      repeat first [rewrite <- app_assoc | progress cbn [app]]. reflexivity.
    + subst closed.
      repeat first [rewrite <- app_assoc | progress cbn [app]]. reflexivity.
  - rewrite Pty_exit_open. run. subst opened closed.
    repeat first [rewrite <- app_assoc | progress cbn [app]]. reflexivity.
Qed.

(** [cmd_output_p] up to the opening of the pty. *)
Lemma cmd_output_p_early fuel argv kwargs s :
  kwargs !! "stderr" = Some STDOUT ->
  cmd_output_p fuel argv None kwargs s =
    match normalize_cmd argv (env s) with
    | ExecutableNotFound to_output =>
      (Ret to_output,
       {| log := log s ++ [EvNormalize argv]; env := env s; ptys := ptys s |})
    | Resolved argv' =>
      match open_devnull (env s) with
      | (OsErr n, e1) =>
        (Raise (ExOSError n),
         {| log := log s ++ [EvNormalize argv; EvOpenDevnull];
            env := e1; ptys := ptys s |})
      | (OsOk devnull, e1) =>
        match openpty e1 with
        | (OsErr n, e2) =>
          (Raise (ExOSError n),
           {| log := log s ++ [EvNormalize argv; EvOpenDevnull; EvOpenpty;
                               EvFileClose devnull];
              env := file_close devnull e2;
              ptys := ptys s ++ [{| r := None; w := None |}] |})
        | (OsOk _, _) => cmd_output_p fuel argv None kwargs s
        end
      end
    end.
Proof.
  intros Hk.
  destruct (normalize_cmd argv (env s)) as [argv'|to_output] eqn:Hn.
  - destruct (open_devnull (env s)) as [[devnull|n] e1] eqn:Hd.
    + destruct (openpty e1) as [[fds|n] e2] eqn:Ho; [reflexivity|].
      unfold cmd_output_p. rewrite Hk.
      rewrite !bool_decide_eq_true_2 by reflexivity.
      unfold with_. run. rewrite bool_decide_eq_true_2 by reflexivity. run.
      rewrite Hn. run. rewrite Hd. run.
      pose proof (Pty_enter_failure
                    {| log := (log s ++ [EvNormalize argv]) ++ [EvOpenDevnull];
                       env := e1; ptys := ptys s |} n e2 Ho) as He.
      cbn [log env ptys] in He. unfold mbind, M_bind, bind in He.
      rewrite He. run.
      repeat first [rewrite <- app_assoc | progress cbn [app]]. reflexivity.
    + unfold cmd_output_p. rewrite Hk.
      rewrite !bool_decide_eq_true_2 by reflexivity.
      unfold with_. run. rewrite bool_decide_eq_true_2 by reflexivity. run.
      rewrite Hn. run. rewrite Hd. run.
      repeat first [rewrite <- app_assoc | progress cbn [app]]. reflexivity.
  - unfold cmd_output_p. rewrite Hk.
    rewrite !bool_decide_eq_true_2 by reflexivity.
    run. rewrite bool_decide_eq_true_2 by reflexivity. run.
    rewrite Hn. reflexivity.
Qed.

(** X8.  [cmd_output_p] before it spawns.  When the executable is not
    found, the resolver's triple is returned as it is, whatever its exit
    code, and neither the null input nor a pty is opened.  When the null
    input cannot be opened, its [OSError] is raised and no pty is asked
    for.  When [openpty] fails, the null input is closed again and the
    [OSError] is raised.  In none of the three cases is a process spawned. *)
Theorem cmd_output_p_before_spawn fuel argv kwargs s :
  kwargs !! "stderr" = Some STDOUT ->
  (forall to_output,
     normalize_cmd argv (env s) = ExecutableNotFound to_output ->
     cmd_output_p fuel argv None kwargs s =
       (Ret to_output,
        {| log := log s ++ [EvNormalize argv]; env := env s; ptys := ptys s |})) /\
  (forall argv' n e1,
     normalize_cmd argv (env s) = Resolved argv' ->
     open_devnull (env s) = (OsErr n, e1) ->
     cmd_output_p fuel argv None kwargs s =
       (Raise (ExOSError n),
        {| log := log s ++ [EvNormalize argv; EvOpenDevnull];
           env := e1; ptys := ptys s |})) /\
  (forall argv' devnull e1 n e2,
     normalize_cmd argv (env s) = Resolved argv' ->
     open_devnull (env s) = (OsOk devnull, e1) ->
     openpty e1 = (OsErr n, e2) ->
     cmd_output_p fuel argv None kwargs s =
       (Raise (ExOSError n),
        {| log := log s ++ [EvNormalize argv; EvOpenDevnull; EvOpenpty;
                            EvFileClose devnull];
           env := file_close devnull e2;
           ptys := ptys s ++ [{| r := None; w := None |}] |})).
Proof.
  intros Hk. repeat split.
  - intros to_output Hn. rewrite (cmd_output_p_early _ _ _ _ Hk), Hn. reflexivity.
  - intros argv' n e1 Hn Hd.
    rewrite (cmd_output_p_early _ _ _ _ Hk), Hn, Hd. reflexivity.
  - intros argv' devnull e1 n e2 Hn Hd Ho.
    rewrite (cmd_output_p_early _ _ _ _ Hk), Hn, Hd, Ho. reflexivity.
Qed.

(** X9.  When the process cannot be started, [cmd_output_p] closes the
    write end of the pty, then the read end, then the null input, and
    raises the [OSError] of [Popen]; it does not read and does not wait. *)
Theorem cmd_output_p_spawn_failure fuel argv kwargs s argv' devnull e1
    fd_r fd_w e2 n e4 :
  kwargs !! "stderr" = Some STDOUT ->
  normalize_cmd argv (env s) = Resolved argv' ->
  open_devnull (env s) = (OsOk devnull, e1) ->
  openpty e1 = (OsOk (fd_r, fd_w), e2) ->
  let attrs := tcgetattr fd_r e2 in
  let attrs' :=
    {| iflag := iflag attrs;
       oflag := Z.land (oflag attrs) (Z.lnot (Z.lor ONLCR OPOST));
       cflag := cflag attrs; lflag := lflag attrs;
       ispeed := ispeed attrs; ospeed := ospeed attrs; cc := cc attrs |} in
  let kwargs' :=
    <["stderr" := PInt fd_w]>
      (<["stdout" := PInt fd_w]>
         (<["stdin" := PFile devnull]> (_setdefault_kwargs kwargs))) in
  Popen argv' kwargs' (tcsetattr fd_r attrs' e2) = (OsErr n, e4) ->
  cmd_output_p fuel argv None kwargs s =
    (Raise (ExOSError n),
     {| log := log s ++ [EvNormalize argv; EvOpenDevnull; EvOpenpty;
                         EvTcgetattr fd_r; EvTcsetattr fd_r attrs';
                         EvPopen argv' kwargs';
                         EvClose fd_w; EvClose fd_r; EvFileClose devnull];
        env := file_close devnull (os_close fd_r (os_close fd_w e4));
        ptys := ptys s ++ [{| r := None; w := None |}] |}).
Proof.
  intros Hk Hn Hd Ho attrs attrs' kwargs' Hp.
  rewrite (cmd_output_p_session _ _ _ _ _ _ _ _ _ _ Hk Hn Hd Ho).
  cbn zeta. fold attrs attrs' kwargs'. rewrite Hp.
  repeat first [rewrite <- app_assoc | progress cbn [app]]. reflexivity.
Qed.

End Pty_runner_more.

Lemma stderr_is_STDOUT :
  ({["stderr" := STDOUT]} : gmap string pyval) !! "stderr" = Some STDOUT.
Proof. apply lookup_singleton_eq. Qed.

Lemma cmd_output_p_before_spawn_witness :
  cmd_output_p 8 ["dne"] None {["stderr" := STDOUT]} Sim.world0 =
    (Ret (1%Z, Sim.dne_output, None),
     @Build_World Sim.platform [EvNormalize ["dne"]] Sim.boot []) /\
  cmd_output_p 8 ["echo"; "hi"] None {["stderr" := STDOUT]}
    (SimLib.faulty_world None (Some 24%Z) None) =
    (Raise (ExOSError 24),
     @Build_World (SimLib.faulty None (Some 24%Z) None)
       [EvNormalize ["echo"; "hi"]; EvOpenDevnull; EvOpenpty; EvFileClose 0]
       Sim.boot [{| r := None; w := None |}]).
Proof.
  split.
  - apply (proj1 (cmd_output_p_before_spawn (P := Sim.platform) 8 ["dne"]
                    {["stderr" := STDOUT]} Sim.world0 stderr_is_STDOUT)).
    reflexivity.
  - apply (proj2 (proj2 (cmd_output_p_before_spawn
                           (P := SimLib.faulty None (Some 24%Z) None)
                           8 ["echo"; "hi"] {["stderr" := STDOUT]}
                           (SimLib.faulty_world None (Some 24%Z) None)
                           stderr_is_STDOUT))
             ["/bin/echo"; "hi"] 0%nat Sim.boot 24%Z Sim.boot);
      reflexivity.
Defined.

Lemma cmd_output_p_spawn_failure_witness :
  fst (cmd_output_p 8 ["echo"; "hi"] None {["stderr" := STDOUT]}
         (SimLib.faulty_world (Some 13%Z) None None))
    = Raise (ExOSError 13) /\
  List.filter (fun ev => match ev with
                         | EvClose _ | EvFileClose _ => true
                         | _ => false
                         end)
    (log (snd (cmd_output_p 8 ["echo"; "hi"] None {["stderr" := STDOUT]}
                 (SimLib.faulty_world (Some 13%Z) None None))))
    = [EvClose 4; EvClose 3; EvFileClose 0].
Proof.
  rewrite (cmd_output_p_spawn_failure (P := SimLib.faulty (Some 13%Z) None None)
             8 ["echo"; "hi"] {["stderr" := STDOUT]}
             (SimLib.faulty_world (Some 13%Z) None None)
             ["/bin/echo"; "hi"] 0%nat Sim.boot 3%Z 4%Z
             (snd (Sim.new_pty Sim.boot)) 13%Z (snd (Sim.new_pty Sim.boot)));
    [split; reflexivity
    | vm_compute; reflexivity | reflexivity | reflexivity | reflexivity
    | reflexivity].
Defined.

(** ** Removal, cleanup and temporary directories *)

Section Filesystem_more.
Context `{P : Platform}.

Lemma shutil_walk_walks h e plan e' :
  walks e plan e' ->
  forall lg pt,
    shutil_walk h plan {| log := lg; env := e; ptys := pt |} =
    (Ret tt, {| log := lg ++ map call_event plan; env := e'; ptys := pt |}).
Proof.
  induction 1 as [e|e f p e1 rest e2 Hc Hw IH]; intros lg pt.
  - cbn. now rewrite app_nil_r.
  - rewrite (shutil_walk_step_ok h f p rest _ e1) by exact Hc.
    cbn [log env ptys]. rewrite IH, <- app_assoc. reflexivity.
Qed.

(** A failure of the walk that the handler does not take up ends
    [rmtree]. *)
Lemma rmtree_propagates path s pre f p post s1 n e' :
  rmtree_plan path (env s) = pre ++ (f, p) :: post ->
  shutil_walk handle_remove_readonly pre s = (Ret tt, s1) ->
  os_call f p (env s1) = (OsErr n, e') ->
  f ∉ [os_rmdir; os_remove; os_unlink] \/ n <> EACCES ->
  rmtree path s =
    (Raise (ExOSError n),
     {| log := log s1 ++ [EvCall f p]; env := e'; ptys := ptys s1 |}).
Proof.
  intros Hplan Hpre Hcall Hother.
  unfold rmtree, shutil_rmtree. rewrite Hplan, shutil_walk_app.
  rewrite (bind_Ret _ _ _ _ _ Hpre).
  rewrite (shutil_walk_step_err _ _ _ _ _ _ _ Hcall).
  apply bind_Raise. apply handle_remove_readonly_reraise.
  destruct Hother as [Hf|Hn]; [now left|right; congruence].
Qed.

(** X11.  When every operation of the walk succeeds, [rmtree] performs
    exactly the operations of the plan, in order, and returns: the error
    handler is never entered, so no mode is read or changed. *)
Theorem rmtree_without_failure path s e' :
  walks (env s) (rmtree_plan path (env s)) e' ->
  rmtree path s =
    (Ret tt,
     {| log := log s ++ map call_event (rmtree_plan path (env s));
        env := e'; ptys := ptys s |}).
Proof.
  intros Hw. unfold rmtree, shutil_rmtree. destruct s as [lg e pt].
  cbn [env] in *. apply shutil_walk_walks. exact Hw.
Qed.

(** X12.  Inside the handler, a failure of [stat] or [chmod] on the path
    or on its parent directory ends the handler with that failure: the
    removal is not tried again, the [EACCES] that brought the handler in is
    not the error raised, and the modes changed so far stay changed. *)
Theorem handle_remove_readonly_chmod_failure func path s :
  func ∈ [os_rmdir; os_remove; os_unlink] ->
  (forall n,
     os_stat path (env s) = OsErr n ->
     handle_remove_readonly func path (ExOSError EACCES) s =
       (Raise (ExOSError n),
        {| log := log s ++ [EvStat path]; env := env s; ptys := ptys s |})) /\
  (forall m1 n e1,
     os_stat path (env s) = OsOk m1 ->
     os_chmod path (Z.lor m1 S_IWUSR) (env s) = (OsErr n, e1) ->
     handle_remove_readonly func path (ExOSError EACCES) s =
       (Raise (ExOSError n),
        {| log := log s ++ [EvStat path; EvChmod path (Z.lor m1 S_IWUSR)];
           env := e1; ptys := ptys s |})) /\
  (forall m1 e1 n,
     os_stat path (env s) = OsOk m1 ->
     os_chmod path (Z.lor m1 S_IWUSR) (env s) = (OsOk tt, e1) ->
     os_stat (os_path_dirname path) e1 = OsErr n ->
     handle_remove_readonly func path (ExOSError EACCES) s =
       (Raise (ExOSError n),
        {| log := log s ++ [EvStat path; EvChmod path (Z.lor m1 S_IWUSR);
                            EvStat (os_path_dirname path)];
           env := e1; ptys := ptys s |})) /\
  (forall m1 e1 m2 n e2,
     os_stat path (env s) = OsOk m1 ->
     os_chmod path (Z.lor m1 S_IWUSR) (env s) = (OsOk tt, e1) ->
     os_stat (os_path_dirname path) e1 = OsOk m2 ->
     os_chmod (os_path_dirname path) (Z.lor m2 S_IWUSR) e1 = (OsErr n, e2) ->
     handle_remove_readonly func path (ExOSError EACCES) s =
       (Raise (ExOSError n),
        {| log := log s ++ [EvStat path; EvChmod path (Z.lor m1 S_IWUSR);
                            EvStat (os_path_dirname path);
                            EvChmod (os_path_dirname path) (Z.lor m2 S_IWUSR)];
           env := e2; ptys := ptys s |})).
Proof.
  intros Hf.
  assert (Hstart :
    handle_remove_readonly func path (ExOSError EACCES) s =
    (foldr (fun p rest =>
              mode ← os_stat_m p; os_chmod_m p (Z.lor mode S_IWUSR);; rest)
           (ret tt) [path; os_path_dirname path];;
     os_call_m func path) s).
  { unfold handle_remove_readonly.
    rewrite bool_decide_eq_true_2 by exact Hf. reflexivity. }
  rewrite Hstart. cbn [foldr]. repeat split.
  - intros n H1. run. rewrite H1. reflexivity.
  - intros m1 n e1 H1 H2. run. rewrite H1. run. rewrite H2. run.
    now rewrite <- app_assoc.
  - intros m1 e1 n H1 H2 H3. run. rewrite H1. run. rewrite H2. run.
    rewrite H3. run. now rewrite <- !app_assoc.
  - intros m1 e1 m2 n e2 H1 H2 H3 H4. run. rewrite H1. run. rewrite H2. run.
    rewrite H3. run. rewrite H4. run. now rewrite <- !app_assoc.
Qed.

(** X13.  [clean_path_on_failure] does not always re-raise the scope's
    exception: when the scope raises, the path exists, and the walk of
    [rmtree] meets a failure its handler does not take up, the [OSError]
    of that failure is what leaves, and the scope's exception is lost. *)
Theorem clean_path_on_failure_rmtree_fails {A} path (body : M A) s e s1
    pre f p post s2 n e' :
  body s = (Raise e, s1) ->
  os_path_exists path (env s1) = true ->
  rmtree_plan path (env s1) = pre ++ (f, p) :: post ->
  shutil_walk handle_remove_readonly pre
    {| log := log s1 ++ [EvExists path]; env := env s1; ptys := ptys s1 |}
    = (Ret tt, s2) ->
  os_call f p (env s2) = (OsErr n, e') ->
  f ∉ [os_rmdir; os_remove; os_unlink] \/ n <> EACCES ->
  clean_path_on_failure path body s =
    (Raise (ExOSError n),
     {| log := log s2 ++ [EvCall f p]; env := e'; ptys := ptys s2 |}).
Proof.
  intros Hb He Hplan Hpre Hcall Hother.
  unfold clean_path_on_failure, try_except. rewrite Hb. run. rewrite He.
  erewrite (rmtree_propagates path _ pre f p post s2 n e');
    [reflexivity|exact Hplan|exact Hpre|exact Hcall|exact Hother].
Qed.

(** X14.  [make_executable] is idempotent where [chmod] sets the
    permission bits it is given: a second call asks for the same mode as
    the first and leaves the file's mode as the first call left it. *)
Theorem make_executable_twice filename s mode e1 e2 :
  chmod_sets_permission_bits ->
  os_stat filename (env s) = OsOk mode ->
  let new_mode := Z.lor (Z.lor (Z.lor mode S_IXUSR) S_IXGRP) S_IXOTH in
  os_chmod filename new_mode (env s) = (OsOk tt, e1) ->
  os_chmod filename new_mode e1 = (OsOk tt, e2) ->
  (make_executable filename;; make_executable filename) s =
    (Ret tt,
     {| log := log s ++ [EvStat filename; EvChmod filename new_mode;
                         EvStat filename; EvChmod filename new_mode];
        env := e2; ptys := ptys s |}) /\
  os_stat filename e1 = OsOk new_mode /\
  os_stat filename e2 = OsOk new_mode.
Proof.
  intros Hlaw Hs new_mode Hc1 Hc2.
  assert (H1 : os_stat filename e1 = OsOk new_mode).
  { rewrite (Hlaw _ _ _ _ _ Hs Hc1). subst new_mode.
    now rewrite permission_bits_of_execute. }
  assert (Hidem : Z.lor (Z.lor (Z.lor new_mode S_IXUSR) S_IXGRP) S_IXOTH = new_mode).
  { subst new_mode. apply Z.bits_inj'. intros i _. rewrite !execute_bits.
    destruct (Z.testbit mode i), (i =? 6)%Z, (i =? 3)%Z, (i =? 0)%Z; reflexivity. }
  split; [|split; [exact H1|]].
  - unfold make_executable. run. rewrite Hs. run. fold new_mode. rewrite Hc1. run.
    rewrite H1. run. rewrite Hidem, Hc2. rewrite <- !app_assoc. reflexivity.
  - rewrite (Hlaw _ _ _ _ _ H1 Hc2). rewrite <- Hidem at 2.
    now rewrite permission_bits_of_execute, Hidem.
Qed.

End Filesystem_more.

Lemma rmtree_without_failure_witness :
  let s := @Build_World Sim.platform [] SimLib.boot_rw [] in
  rmtree "/tmp/d" s =
    (Ret tt,
     @Build_World Sim.platform
       [EvCall os_scandir "/tmp/d"; EvCall os_unlink "/tmp/d/f";
        EvCall os_rmdir "/tmp/d"]
       (Sim.with_files [("/tmp", 17407%Z)] Sim.boot) []).
Proof.
  intros s.
  apply (rmtree_without_failure (P := Sim.platform) "/tmp/d" s
           (Sim.with_files [("/tmp", 17407%Z)] Sim.boot)).
  eapply walks_cons; [reflexivity|].
  eapply walks_cons; [reflexivity|].
  eapply walks_cons; [reflexivity|].
  apply walks_nil.
Defined.

Lemma handle_remove_readonly_chmod_failure_witness :
  let s := @Build_World Sim.platform [] SimLib.boot_rel [] in
  @os_path_dirname Sim.platform "ro" = EmptyString /\
  handle_remove_readonly os_unlink "ro" (ExOSError EACCES) s =
    (Raise (ExOSError Sim.ENOENT),
     @Build_World Sim.platform
       [EvStat "ro"; EvChmod "ro" 33188; EvStat EmptyString]
       (snd (Sim.chmod "ro" 33188 SimLib.boot_rel)) []).
Proof.
  intros s. split; [reflexivity|].
  assert (Hf : os_unlink ∈ [os_rmdir; os_remove; os_unlink]) by set_solver.
  apply (proj1 (proj2 (proj2
           (handle_remove_readonly_chmod_failure (P := Sim.platform)
              os_unlink "ro" s Hf)))
           33060%Z (snd (Sim.chmod "ro" 33188 SimLib.boot_rel)) Sim.ENOENT);
    reflexivity.
Defined.

Lemma clean_path_on_failure_rmtree_fails_witness :
  clean_path_on_failure "/tmp/d" (raise (ExOther "boom"))
    (SimLib.faulty_world None None (Some 1%Z)) =
    (Raise (ExOSError 1) : outcome unit,
     @Build_World (SimLib.faulty None None (Some 1%Z))
       [EvExists "/tmp/d"; EvCall os_scandir "/tmp/d"] Sim.boot []).
Proof.
  apply (clean_path_on_failure_rmtree_fails
           (P := SimLib.faulty None None (Some 1%Z)) (A := unit)
           "/tmp/d" (raise (ExOther "boom"))
           (SimLib.faulty_world None None (Some 1%Z)) (ExOther "boom")
           (SimLib.faulty_world None None (Some 1%Z))
           [] os_scandir "/tmp/d"
           [(os_unlink, "/tmp/d/ro"); (os_rmdir, "/tmp/d")]
           (@Build_World (SimLib.faulty None None (Some 1%Z))
              [EvExists "/tmp/d"] Sim.boot [])
           1%Z Sim.boot);
    try reflexivity.
  right. unfold EACCES. lia.
Defined.

Lemma make_executable_twice_witness :
  let e1 := snd (Sim.chmod "/tmp/d/ro" 33133 Sim.boot) in
  (make_executable "/tmp/d/ro";; make_executable "/tmp/d/ro") Sim.world0 =
    (Ret tt,
     @Build_World Sim.platform
       [EvStat "/tmp/d/ro"; EvChmod "/tmp/d/ro" 33133;
        EvStat "/tmp/d/ro"; EvChmod "/tmp/d/ro" 33133] e1 []) /\
  Sim.stat_mode "/tmp/d/ro" e1 = OsOk 33133%Z.
Proof.
  intros e1.
  destruct (make_executable_twice (P := Sim.platform) "/tmp/d/ro" Sim.world0
              33060%Z e1 e1 Sim_chmod_sets_permission_bits
              eq_refl eq_refl eq_refl) as (Hrun & H1 & _).
  split; [exact Hrun|exact H1].
Defined.

Section Tmpdir_more.
Context `{P : Platform}.
Variable mkdtemp : Env -> osres string * Env.

(** X15.  [tmpdir] removes the directory it made on every way out of the
    scope.  When the scope returns, [rmtree] runs and the scope's value is
    returned; when the scope raises, [rmtree] runs and the scope's
    exception goes on; in both cases an exception of [rmtree] itself
    replaces the outcome.  When [mkdtemp] fails, the scope does not run and
    nothing is removed. *)
Theorem tmpdir_cleanup {A} (body : string -> M A) s :
  (forall d e1 a s1 s2,
     mkdtemp (env s) = (OsOk d, e1) ->
     body d {| log := log s; env := e1; ptys := ptys s |} = (Ret a, s1) ->
     rmtree d s1 = (Ret tt, s2) ->
     tmpdir mkdtemp body s = (Ret a, s2)) /\
  (forall d e1 e s1 s2,
     mkdtemp (env s) = (OsOk d, e1) ->
     body d {| log := log s; env := e1; ptys := ptys s |} = (Raise e, s1) ->
     rmtree d s1 = (Ret tt, s2) ->
     tmpdir mkdtemp body s = (Raise e, s2)) /\
  (forall d e1 o s1 e2 s2,
     mkdtemp (env s) = (OsOk d, e1) ->
     body d {| log := log s; env := e1; ptys := ptys s |} = (o, s1) ->
     o <> Bottom ->
     rmtree d s1 = (Raise e2, s2) ->
     tmpdir mkdtemp body s = (Raise e2, s2)) /\
  (forall n e1,
     mkdtemp (env s) = (OsErr n, e1) ->
     tmpdir mkdtemp body s =
       (Raise (ExOSError n), {| log := log s; env := e1; ptys := ptys s |})).
Proof.
  unfold tmpdir, mkdtemp_m. repeat split.
  - intros d e1 a s1 s2 Hm Hb Hr. run. rewrite Hm, Hb, Hr. reflexivity.
  - intros d e1 e s1 s2 Hm Hb Hr. run. rewrite Hm, Hb, Hr. reflexivity.
  - intros d e1 o s1 e2 s2 Hm Hb Ho Hr. run. rewrite Hm, Hb.
    destruct o as [a|e|]; [| |contradiction]; now rewrite Hr.
  - intros n e1 Hm. run. now rewrite Hm.
Qed.

End Tmpdir_more.

Lemma tmpdir_cleanup_witness :
  let made := @Build_World Sim.platform [] (snd (SimLib.mkdtemp Sim.boot)) [] in
  tmpdir (P := Sim.platform) SimLib.mkdtemp (fun d => mret (String.length d)) Sim.world0 =
    (Ret 7%nat, snd (rmtree "/tmp/t0" made)) /\
  @os_path_exists Sim.platform "/tmp/t0" (env made) = true /\
  @os_path_exists Sim.platform "/tmp/t0" (env (snd (rmtree "/tmp/t0" made))) = false /\
  fst (tmpdir (P := Sim.platform) SimLib.mkdtemp (fun d => raise (ExKeyError d) : M unit) Sim.world0)
    = Raise (ExKeyError "/tmp/t0").
Proof.
  intros made.
  split; [|split; [reflexivity|split; [reflexivity|]]].
  - apply (proj1 (tmpdir_cleanup (P := Sim.platform) SimLib.mkdtemp
                    (fun d => mret (String.length d)) Sim.world0)
             "/tmp/t0" (snd (SimLib.mkdtemp Sim.boot)) 7%nat made);
      reflexivity.
  - rewrite (proj1 (proj2 (tmpdir_cleanup (P := Sim.platform) SimLib.mkdtemp
                             (fun d => raise (ExKeyError d) : M unit) Sim.world0))
               "/tmp/t0" (snd (SimLib.mkdtemp Sim.boot)) (ExKeyError "/tmp/t0")
               made (snd (rmtree "/tmp/t0" made)));
      reflexivity.
Defined.

(** ** [parse_version] *)

Section Split_facts.
Variable sep : ascii.

Lemma split_nonempty s : split sep s <> [].
Proof.
  destruct s as [|c rest]; cbn; [discriminate|].
  destruct (Ascii.eqb c sep); [discriminate|].
  destruct (split sep rest); discriminate.
Qed.

Lemma split_length s : length (split sep s) = S (count_char sep s).
Proof.
  induction s as [|c rest IH]; [reflexivity|]. cbn.
  destruct (Ascii.eqb c sep); cbn; [now rewrite IH|].
  destruct (split sep rest) as [|head tail] eqn:E.
  - now destruct (split_nonempty rest).
  - cbn in *. exact IH.
Qed.

Lemma split_no_sep x : count_char sep x = 0 -> split sep x = [x].
Proof.
  induction x as [|c rest IH]; [reflexivity|]. cbn.
  destruct (Ascii.eqb c sep); [discriminate|]. cbn. intros H.
  now rewrite (IH H).
Qed.

Lemma split_app_sep x y :
  count_char sep x = 0 ->
  split sep (x ++ String sep y) = x :: split sep y.
Proof.
  induction x as [|c rest IH]; simpl.
  - now rewrite Ascii.eqb_refl.
  - destruct (Ascii.eqb c sep); [discriminate|]. simpl. intros H.
    now rewrite (IH H).
Qed.

(** What follows a separator keeps its empty parts. *)
Lemma split_after_sep a x :
  In EmptyString (split sep x) ->
  exists head tail,
    split sep (a ++ String sep x) = head :: tail /\ In EmptyString tail.
Proof.
  intros Hx. induction a as [|c a IH]; simpl.
  - rewrite Ascii.eqb_refl. eauto.
  - destruct IH as (head & tail & E & Hin).
    destruct (Ascii.eqb c sep).
    + exists EmptyString, (split sep (a ++ String sep x)).
      split; [reflexivity|]. rewrite E. now right.
    + rewrite E. eauto.
Qed.

Lemma split_concat parts :
  parts <> [] ->
  Forall (fun p => count_char sep p = 0) parts ->
  split sep (String.concat (String sep EmptyString) parts) = parts.
Proof.
  induction parts as [|p rest IH]; [congruence|]. intros _ Hall.
  inversion Hall as [|? ? Hp Hrest]; subst.
  destruct rest as [|q rest].
  - cbn. now apply split_no_sep.
  - change (String.concat (String sep EmptyString) (p :: q :: rest))
      with (p ++ String sep (String.concat (String sep EmptyString) (q :: rest)))%string.
    rewrite (split_app_sep _ _ Hp), IH; [reflexivity|discriminate|exact Hrest].
Qed.

End Split_facts.

Lemma str_of_int_no_dot n : count_char "." (str_of_int n) = 0.
Proof.
  assert (Hu : forall d, count_char "." (NilEmpty.string_of_uint d) = 0).
  { induction d; cbn; auto. }
  assert (Hz : forall d, count_char "." (NilZero.string_of_uint d) = 0).
  { intros d. destruct d; try apply Hu. reflexivity. }
  unfold str_of_int. destruct (Z.to_int n) as [d|d]; cbn; apply Hz.
Qed.

Section Parse_version_facts.
Variable int_of_str : string -> option Z.

Lemma ints_Version parts t :
  ints int_of_str parts = Version t <->
  Forall2 (fun p n => int_of_str p = Some n) parts t.
Proof.
  revert t. induction parts as [|p rest IH]; intros t; cbn.
  - split.
    + intros H. inversion H. constructor.
    + intros H. inversion H. reflexivity.
  - destruct (int_of_str p) as [n|] eqn:Hp.
    + destruct (ints int_of_str rest) as [t'|q] eqn:Hr.
      * split.
        -- intros H. inversion H; subst. constructor; [exact Hp|].
           now apply IH.
        -- intros H. inversion H as [|? ? ? ? Hn Hrest]; subst.
           apply IH in Hrest. congruence.
      * split; [discriminate|].
        intros H. inversion H as [|? ? ? ? Hn Hrest]; subst.
        apply IH in Hrest. discriminate.
    + split; [discriminate|].
      intros H. inversion H; subst. congruence.
Qed.

Lemma ints_ValueError parts q :
  ints int_of_str parts = ValueError q ->
  exists pre post,
    parts = pre ++ q :: post /\ int_of_str q = None /\
    Forall (fun p => is_Some (int_of_str p)) pre.
Proof.
  induction parts as [|p rest IH]; cbn; [discriminate|].
  destruct (int_of_str p) as [n|] eqn:Hp.
  - destruct (ints int_of_str rest) as [t'|q'] eqn:Hr; [discriminate|].
    intros H. inversion H; subst.
    destruct (IH eq_refl) as (pre & post & -> & Hq & Hpre).
    exists (p :: pre), post. repeat split; [exact Hq|].
    constructor; [now exists n|exact Hpre].
  - intros H. inversion H; subst. exists [], rest. repeat split; [exact Hp|].
    constructor.
Qed.

(** X16.  [parse_version] reads back what [str] writes: for a non-empty
    tuple of integers, joining their decimal forms with dots and parsing the
    result gives the tuple again (for an [int] that reads every [str(n)]
    as [n]). *)
Theorem parse_version_join ns :
  (forall n, int_of_str (str_of_int n) = Some n) ->
  ns <> [] ->
  parse_version int_of_str (String.concat "." (map str_of_int ns)) = Version ns.
Proof.
  intros Hint Hne. unfold parse_version.
  rewrite split_concat.
  - apply ints_Version. clear Hne. induction ns as [|n ns IH]; constructor.
    + apply Hint.
    + exact IH.
  - destruct ns; [congruence|discriminate].
  - apply List.Forall_forall. intros p Hp. apply in_map_iff in Hp as [n [<- _]].
    apply str_of_int_no_dot.
Qed.

(** X17.  When [parse_version] returns, the tuple has exactly one integer
    per dot-separated part of the string, each the [int] of its part: its
    length is the number of dots plus one, so it is never empty. *)
Theorem parse_version_parts s t :
  parse_version int_of_str s = Version t ->
  Forall2 (fun p n => int_of_str p = Some n) (split "." s) t /\
  length t = S (count_char "." s).
Proof.
  unfold parse_version. intros H. apply ints_Version in H. split; [exact H|].
  rewrite <- (split_length "." s). symmetry.
  clear -H. induction H; cbn; congruence.
Qed.

(** X18.  [parse_version] fails with the [ValueError] of the first part
    that [int] refuses, and it fails whenever some part is refused; so,
    [int] refusing the empty string, it fails on an empty string, on a
    leading or trailing dot, and on two dots in a row. *)
Theorem parse_version_refuses s :
  (forall q, parse_version int_of_str s = ValueError q ->
     exists pre post,
       split "." s = pre ++ q :: post /\ int_of_str q = None /\
       Forall (fun p => is_Some (int_of_str p)) pre) /\
  (forall p, In p (split "." s) -> int_of_str p = None ->
     exists q, parse_version int_of_str s = ValueError q) /\
  (int_of_str EmptyString = None ->
   forall a b, s = EmptyString \/ s = String "." b \/ s = (a ++ ".")%string
               \/ s = (a ++ ".." ++ b)%string ->
   exists q, parse_version int_of_str s = ValueError q).
Proof.
  assert (Hrefused : forall p, In p (split "." s) -> int_of_str p = None ->
            exists q, parse_version int_of_str s = ValueError q).
  { intros p Hin Hp. unfold parse_version.
    destruct (ints int_of_str (split "." s)) as [t|q] eqn:E; [|now exists q].
    apply ints_Version in E. exfalso. clear -E Hin Hp.
    induction E as [|p' n ps t Hn _ IH]; [contradiction|].
    destruct Hin as [->|Hin]; [congruence|auto]. }
  split; [|split].
  - intros q H. apply ints_ValueError. exact H.
  - exact Hrefused.
  - intros Hempty a b Hs. apply (Hrefused EmptyString); [|exact Hempty].
    destruct Hs as [ -> | [ -> | [ -> | -> ] ] ].
    + now left.
    + now left.
    + destruct (split_after_sep "." a EmptyString) as (head & tail & E & Hin);
        [now left|].
      rewrite E. now right.
    + destruct (split_after_sep "." a (String "." b)) as (head & tail & E & Hin);
        [now left|].
      change (a ++ ".." ++ b)%string with (a ++ String "." (String "." b))%string.
      rewrite E. now right.
Qed.

End Parse_version_facts.

(** The small machine's [int] reads every [str(n)] as [n], and refuses the
    empty string. *)
Lemma SimLib_int_of_str_reads n : SimLib.int_of_str (str_of_int n) = Some n.
Proof.
  unfold SimLib.int_of_str, str_of_int. rewrite NilZero.isi.
  - cbn. now rewrite DecimalZ.of_to.
  - destruct n as [|p|p]; try discriminate.
    intros [= H]. now apply DecimalPos.Unsigned.to_uint_nonnil in H.
  - destruct n as [|p|p]; try discriminate.
    intros [= H]. now apply DecimalPos.Unsigned.to_uint_nonnil in H.
Qed.

Lemma parse_version_join_witness :
  parse_version SimLib.int_of_str "3.11.0" = Version [3%Z; 11%Z; 0%Z] /\
  parse_version SimLib.int_of_str "-1.2" = Version [(-1)%Z; 2%Z].
Proof.
  split.
  - apply (parse_version_join SimLib.int_of_str [3%Z; 11%Z; 0%Z]
             SimLib_int_of_str_reads). discriminate.
  - apply (parse_version_join SimLib.int_of_str [(-1)%Z; 2%Z]
             SimLib_int_of_str_reads). discriminate.
Defined.

Lemma parse_version_parts_witness :
  Forall2 (fun p n => SimLib.int_of_str p = Some n)
    (split "." "3.11.0") [3%Z; 11%Z; 0%Z] /\
  length [3%Z; 11%Z; 0%Z] = S (count_char "." "3.11.0").
Proof.
  apply (parse_version_parts SimLib.int_of_str "3.11.0" [3%Z; 11%Z; 0%Z]).
  reflexivity.
Defined.

Lemma parse_version_refuses_witness :
  (exists q, parse_version SimLib.int_of_str "3..1" = ValueError q) /\
  (exists q, parse_version SimLib.int_of_str "3.11." = ValueError q) /\
  (exists q, parse_version SimLib.int_of_str "1.x.2" = ValueError q).
Proof.
  split; [|split].
  - apply (proj2 (proj2 (parse_version_refuses SimLib.int_of_str "3..1"))
             eq_refl "3" "1").
    right. right. right. reflexivity.
  - apply (proj2 (proj2 (parse_version_refuses SimLib.int_of_str "3.11."))
             eq_refl "3.11" EmptyString).
    right. right. left. reflexivity.
  - apply (proj1 (proj2 (parse_version_refuses SimLib.int_of_str "1.x.2")) "x");
      [right; left; reflexivity|reflexivity].
Defined.

(** ** The rendering of [CalledProcessError] *)

Lemma indent_newlines_cons c p :
  indent_newlines (c :: p) =
  (if Byte.eqb c LF then [LF; SP; SP; SP; SP] else [c]) ++ indent_newlines p.
Proof. reflexivity. Qed.

Lemma peel_spaces k (x pre post : bytes) :
  repeat SP k ++ x = pre ++ LF :: post ->
  exists pre', pre = repeat SP k ++ pre' /\ x = pre' ++ LF :: post.
Proof.
  revert pre. induction k as [|k IH]; intros pre H.
  - exists pre. split; [reflexivity|exact H].
  - destruct pre as [|a pre]; [discriminate|].
    cbn in H. injection H as <- H.
    destruct (IH _ H) as (pre' & -> & Hx).
    exists pre'. split; [reflexivity|exact Hx].
Qed.

Lemma indent_newlines_after_LF p :
  forall pre post,
    indent_newlines p = pre ++ LF :: post ->
    exists post', post = [SP; SP; SP; SP] ++ post'.
Proof.
  induction p as [|c p IH]; intros pre post H.
  - destruct pre; discriminate.
  - rewrite indent_newlines_cons in H.
    destruct (Byte.eqb c LF) eqn:E.
    + destruct pre as [|a pre].
      * injection H as <-. eauto.
      * injection H as _ H.
        destruct (peel_spaces 4 _ _ _ H) as (pre' & _ & Hx).
        exact (IH _ _ Hx).
    + destruct pre as [|a pre].
      * injection H as -> _. discriminate.
      * injection H as _ H. exact (IH _ _ H).
Qed.

(** X19.  In what [_indent_or_none] gives, every newline is followed by
    four spaces: no line of a process's output starts a line of the
    rendering, whatever bytes the output holds. *)
Theorem indent_or_none_indents part pre post :
  _indent_or_none part = pre ++ LF :: post ->
  exists post', post = [SP; SP; SP; SP] ++ post'.
Proof.
  intros H.
  assert (Hnone : list_byte_of_string " (none)" <> pre ++ LF :: post).
  { intros E.
    assert (Hin : In LF (list_byte_of_string " (none)")).
    { rewrite E. apply in_or_app. right. now left. }
    vm_compute in Hin. intuition discriminate. }
  destruct part as [[|c p]|]; cbn [_indent_or_none] in H;
    try (now contradiction Hnone).
  destruct pre as [|a pre].
  - injection H as <-. eauto.
  - injection H as _ H.
    destruct (peel_spaces 4 _ _ _ H) as (pre' & _ & Hx).
    exact (indent_newlines_after_LF (c :: p) _ _ Hx).
Qed.

Lemma indent_newlines_prefix_free c :
  c <> SP ->
  forall p q x y,
    indent_newlines p ++ LF :: c :: x = indent_newlines q ++ LF :: c :: y ->
    p = q /\ x = y.
Proof.
  intros Hc. induction p as [|a p IH]; intros q x y H.
  - destruct q as [|d q]; [now injection H|].
    rewrite indent_newlines_cons in H. cbn [indent_newlines flat_map app] in H.
    destruct (Byte.eqb d LF) eqn:E.
    + injection H as H _. congruence.
    + injection H as H _. subst d. discriminate.
  - rewrite indent_newlines_cons in H.
    destruct q as [|d q].
    + cbn [indent_newlines flat_map app] in H.
      destruct (Byte.eqb a LF) eqn:E.
      * injection H as H _. congruence.
      * injection H as H _. subst a. discriminate.
    + rewrite indent_newlines_cons in H.
      destruct (Byte.eqb a LF) eqn:Ea, (Byte.eqb d LF) eqn:Ed.
      * apply Byte.byte_dec_bl in Ea, Ed. subst a d.
        injection H as H. destruct (IH _ _ _ H) as [-> ->]. now split.
      * injection H as H _. subst d. discriminate.
      * injection H as H _. subst a. discriminate.
      * injection H as -> H. destruct (IH _ _ _ H) as [-> ->]. now split.
Qed.

Lemma indent_or_none_prefix_free c a b x y :
  c <> SP ->
  _indent_or_none a ++ LF :: c :: x = _indent_or_none b ++ LF :: c :: y ->
  shown a = shown b /\ x = y.
Proof.
  intros Hc H.
  destruct a as [[|a p]|], b as [[|d q]|]; cbn [_indent_or_none shown] in *;
    try (apply app_inv_head in H; injection H as ->; now split);
    try discriminate.
  injection H as H.
  destruct (indent_newlines_prefix_free c Hc (a :: p) (d :: q) x y H) as [E ->].
  now rewrite E.
Qed.

Lemma indent_or_none_shown a : _indent_or_none a = _indent_or_none (shown a).
Proof. now destruct a as [[|c p]|]. Qed.

(** X20.  For two errors with the same command and exit codes, the
    renderings are equal exactly when their stdout agree and their stderr
    agree, an empty stream and an absent one counting as the same: the
    bytes of the output cannot imitate the line that starts stderr, and
    nothing else of a stream is lost. *)
Theorem CalledProcessError_bytes_injective repr exc1 exc2 :
  cmd exc1 = cmd exc2 ->
  returncode exc1 = returncode exc2 ->
  expected_returncode exc1 = expected_returncode exc2 ->
  (CalledProcessError__bytes__ repr exc1 = CalledProcessError__bytes__ repr exc2
   <-> shown (stdout exc1) = shown (stdout exc2) /\
       shown (stderr exc1) = shown (stderr exc2)).
Proof.
  intros Hcmd Hrc Hexp. unfold CalledProcessError__bytes__.
  rewrite Hcmd, Hrc, Hexp. cbn [concat]. split.
  - intros H. do 4 apply app_inv_head in H.
    change (list_byte_of_string "stderr:")
      with [x73; x74; x64; x65; x72; x72; x3a] in H.
    cbn [app] in H.
    apply indent_or_none_prefix_free in H as [Ho H]; [|discriminate].
    split; [exact Ho|].
    injection H as H. rewrite !app_nil_r in H.
    apply (f_equal (fun l => l ++ [LF; x73])) in H.
    now apply indent_or_none_prefix_free in H as [He _].
  - intros [Ho He].
    rewrite (indent_or_none_shown (stdout exc1)), (indent_or_none_shown (stderr exc1)).
    rewrite Ho, He.
    now rewrite <- (indent_or_none_shown (stdout exc2)),
                <- (indent_or_none_shown (stderr exc2)).
Qed.

Lemma indent_or_none_indents_witness :
  _indent_or_none (Some [x61; LF; x62]) = [LF; SP; SP; SP; SP; x61; LF; SP; SP; SP; SP; x62] /\
  exists post', [SP; SP; SP; SP; x62] = [SP; SP; SP; SP] ++ post'.
Proof.
  split; [reflexivity|].
  apply (indent_or_none_indents (Some [x61; LF; x62]) [LF; SP; SP; SP; SP; x61]
           [SP; SP; SP; SP; x62]).
  reflexivity.
Defined.

Lemma CalledProcessError_bytes_injective_witness :
  CalledProcessError__bytes__ SimLib.repr
    (CalledProcessError__init__ 1 ["/bin/false"] 0 (Some []) None)
  = CalledProcessError__bytes__ SimLib.repr
      (CalledProcessError__init__ 1 ["/bin/false"] 0 None (Some [])).
Proof.
  apply (proj2 (CalledProcessError_bytes_injective SimLib.repr
                  (CalledProcessError__init__ 1 ["/bin/false"] 0 (Some []) None)
                  (CalledProcessError__init__ 1 ["/bin/false"] 0 None (Some []))
                  eq_refl eq_refl eq_refl)).
  split; reflexivity.
Defined.

Section Pty_exit.
Context `{P : Platform}.

(** X21.  [Pty.__exit__] on a session whose read end is open closes the
    write end first, if the body has not closed it, then the read end, and
    leaves both attributes [None]; a second [__exit__] of the same object
    raises [AssertionError] and calls nothing. *)
Theorem Pty_exit_closes self s p fd_r :
  ptys s !! self = Some p ->
  r p = Some fd_r ->
  let s' :=
    {| log := log s ++ match w p with
                       | Some fd_w => [EvClose fd_w; EvClose fd_r]
                       | None => [EvClose fd_r]
                       end;
       env := os_close fd_r match w p with
                            | Some fd_w => os_close fd_w (env s)
                            | None => env s
                            end;
       ptys := <[self := {| r := None; w := None |}]> (ptys s) |} in
  Pty__exit__ self s = (Ret tt, s') /\
  Pty__exit__ self s' = (Raise ExAssertionError, s').
Proof.
  intros Hp Hr s'.
  assert (Hlt : self < length (ptys s)) by (eapply lookup_lt_Some; eassumption).
  split.
  - unfold Pty__exit__. destruct (w p) as [fd_w|] eqn:Hw.
    + erewrite bind_Ret; [|eapply close_w_open; eassumption].
      erewrite close_r_open;
        [| cbn [ptys]; apply list_lookup_insert_eq; exact Hlt
         | cbn [r]; exact Hr].
      subst s'. cbn [log env ptys r w].
      rewrite list_insert_insert_eq, <- app_assoc. reflexivity.
    + erewrite bind_Ret; [|eapply close_w_closed; eassumption].
      erewrite close_r_open; [|exact Hp|exact Hr].
      subst s'. rewrite Hw. reflexivity.
  - unfold Pty__exit__.
    erewrite bind_Ret;
      [|apply (close_w_closed self s' {| r := None; w := None |});
        [subst s'; cbn [ptys]; apply list_lookup_insert_eq; exact Hlt
        |reflexivity]].
    apply (close_r_closed self s' {| r := None; w := None |}); [|reflexivity].
    subst s'. cbn [ptys]. apply list_lookup_insert_eq. exact Hlt.
Qed.

End Pty_exit.

Lemma Pty_exit_closes_witness :
  fst (Pty__exit__ 0 Sim.world_pty) = Ret tt /\
  List.filter (fun ev => match ev with EvClose _ => true | _ => false end)
    (log (snd (Pty__exit__ 0 Sim.world_pty))) = [EvClose 4; EvClose 3] /\
  ptys (snd (Pty__exit__ 0 Sim.world_pty)) = [{| r := None; w := None |}].
Proof.
  destruct (Pty_exit_closes (P := Sim.platform) 0 Sim.world_pty
              {| r := Some 3%Z; w := Some 4%Z |} 3%Z eq_refl eq_refl)
    as [H _].
  rewrite H. repeat split.
Defined.

(** ** [CalledProcessError.__str__] and UTF-8 *)

Lemma high_not_LF b : (byte_val b <? 128)%Z = false -> b <> LF.
Proof. intros H ->. discriminate. Qed.

Lemma cont_not_LF b : is_cont (byte_val b) = true -> b <> LF.
Proof. intros H ->. discriminate. Qed.

Lemma range_not_LF lo hi b :
  (128 <= lo)%Z -> in_range lo hi (byte_val b) = true -> b <> LF.
Proof.
  intros Hlo H ->. unfold in_range in H. apply andb_true_iff in H as [H _].
  apply Z.leb_le in H. change (byte_val LF) with 10%Z in H. lia.
Qed.

(** What one step of the decoder consumes: a non-empty prefix that decides
    the step by itself and is either the newline or free of newlines. *)
Lemma decode_one_used bs c rest :
  decode_one bs = Some (c, rest) ->
  exists used,
    bs = used ++ rest /\ used <> [] /\
    (forall z, decode_one (used ++ z) = Some (c, z)) /\
    (used = [LF] \/ Forall (fun b => b <> LF) used).
Proof.
  intros H. destruct bs as [|b0 t0]; [discriminate|].
  cbn [decode_one] in H.
  destruct (byte_val b0 <? 128)%Z eqn:E0.
  { injection H as <- <-. exists [b0]. repeat split; [discriminate| |].
    - intros z. cbn [app decode_one]. now rewrite E0.
    - destruct (Byte.eqb b0 LF) eqn:E.
      + left. now rewrite (Byte.byte_dec_bl _ _ E).
      + right. constructor; [|constructor]. now apply Byte.eqb_false. }
  destruct t0 as [|b1 t1]; [discriminate|].
  destruct (in_range 194 223 (byte_val b0)) eqn:E1.
  { destruct (is_cont (byte_val b1)) eqn:C1; [|discriminate].
    injection H as <- <-. exists [b0; b1]. repeat split; [discriminate| |].
    - intros z. cbn [app decode_one]. now rewrite E0, E1, C1.
    - right. repeat constructor; [now apply high_not_LF|now apply cont_not_LF]. }
  destruct t1 as [|b2 t2]; [discriminate|].
  destruct (in_range 224 239 (byte_val b0)) eqn:E2.
  { match type of H with
    | (if ?cond then _ else _) = _ => destruct cond eqn:C
    end; [|discriminate].
    injection H as <- <-. exists [b0; b1; b2]. repeat split; [discriminate| |].
    - intros z. cbn [app decode_one]. now rewrite E0, E1, E2, C.
    - apply andb_true_iff in C as [C1 C2].
      right. repeat constructor;
        [now apply high_not_LF| |now apply cont_not_LF].
      eapply range_not_LF; [|exact C1].
      destruct (byte_val b0 =? 224)%Z; lia. }
  destruct t2 as [|b3 t3]; [discriminate|].
  match type of H with
  | (if ?cond then _ else _) = _ => destruct cond eqn:C
  end; [|discriminate].
  injection H as <- <-. exists [b0; b1; b2; b3]. repeat split; [discriminate| |].
  - intros z. cbn [app decode_one]. now rewrite E0, E1, E2, C.
  - apply andb_true_iff in C as [C C3]. apply andb_true_iff in C as [C C2].
    apply andb_true_iff in C as [_ C1].
    right. repeat constructor;
      [now apply high_not_LF| |now apply cont_not_LF|now apply cont_not_LF].
    eapply range_not_LF; [|exact C1].
    destruct (byte_val b0 =? 240)%Z; lia.
Qed.

Lemma decode_utf8_step bs :
  bs <> [] ->
  decode_utf8 bs =
  match decode_one bs with
  | Some (c, rest) => cons c <$> decode_utf8 rest
  | None => None
  end.
Proof.
  intros Hne. destruct bs as [|b0 t0]; [congruence|].
  cbn [decode_utf8 decode_one].
  destruct (byte_val b0 <? 128)%Z; [reflexivity|].
  destruct t0 as [|b1 t1]; [reflexivity|].
  destruct (in_range 194 223 (byte_val b0));
    [destruct (is_cont (byte_val b1)); reflexivity|].
  destruct t1 as [|b2 t2]; [reflexivity|].
  destruct (in_range 224 239 (byte_val b0)).
  { match goal with
    | |- (if ?cond then _ else _) = _ => destruct cond; reflexivity
    end. }
  destruct t2 as [|b3 t3]; [reflexivity|].
  match goal with
  | |- (if ?cond then _ else _) = _ => destruct cond; reflexivity
  end.
Qed.

Lemma decode_one_shorter bs c rest :
  decode_one bs = Some (c, rest) -> length rest < length bs.
Proof.
  intros H. destruct (decode_one_used _ _ _ H) as (used & -> & Hne & _).
  rewrite length_app. destruct used; [congruence|cbn; lia].
Qed.

(** Decoding a concatenation whose first part is valid. *)
Lemma decode_utf8_app a :
  forall ta b,
    decode_utf8 a = Some ta ->
    decode_utf8 (a ++ b) = (fun tb => ta ++ tb) <$> decode_utf8 b.
Proof.
  induction a as [a IH] using (induction_ltof1 _ (@length byte)).
  unfold ltof in IH. intros ta b Ha.
  destruct a as [|a0 a'].
  { injection Ha as <-. cbn [app]. now destruct (decode_utf8 b). }
  rewrite decode_utf8_step in Ha by discriminate.
  destruct (decode_one (a0 :: a')) as [[c rest]|] eqn:E; [|discriminate].
  destruct (decode_utf8 rest) as [tr|] eqn:Er; [|discriminate].
  injection Ha as <-.
  pose proof (decode_one_shorter _ _ _ E) as Hlt.
  destruct (decode_one_used _ _ _ E) as (used & Hsplit & Hne & Hz & _).
  rewrite decode_utf8_step by discriminate.
  rewrite Hsplit, <- app_assoc, Hz.
  rewrite (IH rest Hlt tr b Er). now destruct (decode_utf8 b).
Qed.

Lemma valid_utf8_app a b : valid_utf8 a -> (valid_utf8 (a ++ b) <-> valid_utf8 b).
Proof.
  intros [ta Ha]. unfold valid_utf8. rewrite (decode_utf8_app a ta b Ha).
  destruct (decode_utf8 b); cbn; split; intros [x Hx]; eauto; discriminate.
Qed.

Lemma valid_utf8_ascii bs :
  Forall (fun b => (byte_val b < 128)%Z) bs -> valid_utf8 bs.
Proof. intros H. unfold valid_utf8. rewrite decode_utf8_ascii; eauto. Qed.

(** Where a decoding step ends when a newline follows. *)
Lemma used_before_LF used :
  Forall (fun b => b <> LF) used ->
  forall a rest b,
    used ++ rest = a ++ LF :: b ->
    exists a', a = used ++ a' /\ rest = a' ++ LF :: b.
Proof.
  induction 1 as [|u us Hu _ IH]; intros a rest b H.
  - exists a. split; [reflexivity|exact H].
  - destruct a as [|x a]; cbn in H; injection H as -> H; [congruence|].
    destruct (IH _ _ _ H) as (a' & -> & ->). now exists a'.
Qed.

(** A valid text that goes on after a newline was valid up to it. *)
Lemma valid_utf8_before_LF a :
  forall b, valid_utf8 (a ++ LF :: b) -> valid_utf8 a.
Proof.
  induction a as [a IH] using (induction_ltof1 _ (@length byte)).
  unfold ltof in IH. intros b Hv.
  destruct a as [|a0 a']; [now exists []|].
  unfold valid_utf8 in Hv.
  rewrite decode_utf8_step in Hv by discriminate.
  destruct (decode_one ((a0 :: a') ++ LF :: b)) as [[c rest]|] eqn:E;
    [|destruct Hv; discriminate].
  destruct (decode_one_used _ _ _ E) as (used & Hsplit & Hne & Hz & Hlf).
  assert (Hpre : exists a'', a0 :: a' = used ++ a'' /\ rest = a'' ++ LF :: b).
  { destruct Hlf as [->|Hlf].
    - cbn in Hsplit. injection Hsplit as -> <-. now exists a'.
    - now apply used_before_LF. }
  destruct Hpre as (a'' & Ha & ->).
  assert (Hlt : length a'' < length (a0 :: a')).
  { rewrite Ha, length_app. destruct used; [congruence|cbn; lia]. }
  assert (Hv' : valid_utf8 (a'' ++ LF :: b)).
  { unfold valid_utf8. destruct (decode_utf8 (a'' ++ LF :: b)); [eauto|].
    destruct Hv; discriminate. }
  destruct (IH a'' Hlt b Hv') as [t Ht].
  unfold valid_utf8. rewrite decode_utf8_step by discriminate.
  rewrite Ha, Hz, Ht. cbn. eauto.
Qed.

Lemma indent_newlines_app a b :
  indent_newlines (a ++ b) = indent_newlines a ++ indent_newlines b.
Proof. unfold indent_newlines. apply flat_map_app. Qed.

Lemma indent_newlines_no_LF used :
  Forall (fun b => b <> LF) used -> indent_newlines used = used.
Proof.
  induction 1 as [|u us Hu _ IH]; [reflexivity|].
  rewrite indent_newlines_cons, IH.
  destruct (Byte.eqb u LF) eqn:E; [|reflexivity].
  now apply Byte.byte_dec_bl in E.
Qed.

Lemma used_before_indent used :
  Forall (fun b => b <> LF) used ->
  forall p rest,
    indent_newlines p = used ++ rest ->
    exists p', p = used ++ p' /\ rest = indent_newlines p'.
Proof.
  induction 1 as [|u us Hu _ IH]; intros p rest H.
  - exists p. split; [reflexivity|now symmetry].
  - destruct p as [|x p]; [discriminate|].
    rewrite indent_newlines_cons in H.
    destruct (Byte.eqb x LF) eqn:E.
    + injection H as <- _. congruence.
    + injection H as -> H.
      destruct (IH _ _ H) as (p' & -> & ->). now exists p'.
Qed.

Lemma valid_utf8_spaces x :
  valid_utf8 ([SP; SP; SP; SP] ++ x) <-> valid_utf8 x.
Proof. apply valid_utf8_app. now exists [32; 32; 32; 32]%Z. Qed.

(** Indenting keeps valid bytes valid and invalid bytes invalid. *)
Lemma valid_utf8_indent p :
  valid_utf8 (indent_newlines p) <-> valid_utf8 p.
Proof.
  induction p as [p IH] using (induction_ltof1 _ (@length byte)).
  unfold ltof in IH.
  destruct p as [|p0 p']; [reflexivity|]. split; intros Hv.
  - unfold valid_utf8 in Hv.
    assert (Hne : indent_newlines (p0 :: p') <> []).
    { rewrite indent_newlines_cons. now destruct (Byte.eqb p0 LF). }
    rewrite decode_utf8_step in Hv by exact Hne.
    destruct (decode_one (indent_newlines (p0 :: p'))) as [[c rest]|] eqn:E;
      [|destruct Hv; discriminate].
    assert (Hrest : valid_utf8 rest).
    { unfold valid_utf8. destruct (decode_utf8 rest); [eauto|].
      destruct Hv; discriminate. }
    destruct (decode_one_used _ _ _ E) as (used & Hsplit & Hu & Hz & Hlf).
    destruct Hlf as [->|Hlf].
    + rewrite indent_newlines_cons in Hsplit.
      destruct (Byte.eqb p0 LF) eqn:E0.
      * apply Byte.byte_dec_bl in E0. subst p0.
        injection Hsplit as <-.
        change (valid_utf8 ([SP; SP; SP; SP] ++ indent_newlines p')) in Hrest.
        apply (proj1 (valid_utf8_spaces _)) in Hrest.
        assert (Hlt : length p' < length (LF :: p')) by (cbn; lia).
        apply (proj1 (IH p' Hlt)) in Hrest.
        destruct Hrest as [t Ht]. unfold valid_utf8.
        rewrite decode_utf8_step by discriminate. cbn [decode_one].
        change (byte_val LF <? 128)%Z with true. cbn iota.
        rewrite Ht. cbn. eauto.
      * injection Hsplit as -> _. now rewrite Byte.byte_dec_lb in E0.
    + destruct (used_before_indent used Hlf _ _ Hsplit) as (p'' & Hp & ->).
      assert (Hlt : length p'' < length (p0 :: p')).
      { rewrite Hp, length_app. destruct used; [congruence|cbn; lia]. }
      apply (proj1 (IH p'' Hlt)) in Hrest. destruct Hrest as [t Ht].
      unfold valid_utf8. rewrite decode_utf8_step by discriminate.
      rewrite Hp, Hz, Ht. cbn. eauto.
  - unfold valid_utf8 in Hv. rewrite decode_utf8_step in Hv by discriminate.
    destruct (decode_one (p0 :: p')) as [[c rest]|] eqn:E;
      [|destruct Hv; discriminate].
    assert (Hrest : valid_utf8 rest).
    { unfold valid_utf8. destruct (decode_utf8 rest); [eauto|].
      destruct Hv; discriminate. }
    pose proof (decode_one_shorter _ _ _ E) as Hlt.
    destruct (decode_one_used _ _ _ E) as (used & Hsplit & Hu & Hz & Hlf).
    apply (proj2 (IH rest Hlt)) in Hrest.
    rewrite Hsplit, indent_newlines_app.
    destruct Hlf as [->|Hlf].
    + change (indent_newlines [LF]) with ([LF] ++ [SP; SP; SP; SP]).
      rewrite <- app_assoc. apply valid_utf8_app; [now exists [10%Z]|].
      now apply valid_utf8_spaces.
    + rewrite (indent_newlines_no_LF used Hlf).
      destruct Hrest as [t Ht]. unfold valid_utf8.
      rewrite decode_utf8_step by (destruct used; [congruence|discriminate]).
      rewrite Hz, Ht. cbn. eauto.
Qed.

Lemma list_byte_of_string_app a b :
  list_byte_of_string (a ++ b) = list_byte_of_string a ++ list_byte_of_string b.
Proof.
  unfold list_byte_of_string. induction a as [|c a IH]; simpl; [reflexivity|].
  f_equal. exact IH.
Qed.

Lemma valid_utf8_join a b : valid_utf8 a -> valid_utf8 b -> valid_utf8 (a ++ b).
Proof. intros Ha Hb. now apply valid_utf8_app. Qed.

Lemma valid_utf8_str_of_int n : valid_utf8 (list_byte_of_string (str_of_int n)).
Proof.
  apply valid_utf8_ascii.
  assert (Hu : forall d, Forall (fun b => (byte_val b < 128)%Z)
                           (list_byte_of_string (NilEmpty.string_of_uint d))).
  { induction d; cbn; constructor; try exact IHd; reflexivity. }
  assert (Hz : forall d, Forall (fun b => (byte_val b < 128)%Z)
                           (list_byte_of_string (NilZero.string_of_uint d))).
  { intros d. destruct d; try apply Hu. repeat constructor. }
  unfold str_of_int. destruct (Z.to_int n) as [d|d]; cbn.
  - apply Hz.
  - constructor; [reflexivity|apply Hz].
Qed.

Lemma valid_utf8_indent_or_none part :
  valid_utf8 (_indent_or_none part) <-> is_Some (utf8_text_of part).
Proof.
  destruct part as [[|c p]|]; cbn [_indent_or_none utf8_text_of].
  - split; intros _; [now exists (Some [])|].
    unfold valid_utf8. vm_compute. eauto.
  - change ([LF; SP; SP; SP; SP] ++ indent_newlines (c :: p))
      with ([LF] ++ [SP; SP; SP; SP] ++ indent_newlines (c :: p)).
    rewrite valid_utf8_app by now exists [10%Z].
    rewrite valid_utf8_spaces, valid_utf8_indent. unfold valid_utf8.
    destruct (decode_utf8 (c :: p)); cbn; split; intros [x Hx]; eauto;
      discriminate.
  - split; intros _; [now exists None|].
    unfold valid_utf8. vm_compute. eauto.
Qed.

(** X22.  [str(error)] can itself fail: [CalledProcessError.__str__]
    returns exactly when the captured stdout and the captured stderr are
    both valid UTF-8 (or empty, or absent), and raises [UnicodeDecodeError]
    as soon as one of them holds bytes that are not (the [repr] of the
    command always encodes to valid UTF-8). *)
Theorem CalledProcessError_str_defined repr exc :
  valid_utf8 (list_byte_of_string (repr (cmd exc))) ->
  (is_Some (CalledProcessError__str__ repr exc) <->
   is_Some (utf8_text_of (stdout exc)) /\ is_Some (utf8_text_of (stderr exc))).
Proof.
  intros Hrepr. unfold CalledProcessError__str__, CalledProcessError__bytes__.
  cbn [concat]. fold (valid_utf8
    (list_byte_of_string
       ("command: " ++ repr (cmd exc) ++ String "010" EmptyString) ++
     list_byte_of_string
       ("return code: " ++ str_of_int (returncode exc) ++ String "010" EmptyString) ++
     list_byte_of_string
       ("expected return code: " ++ str_of_int (expected_returncode exc) ++
        String "010" EmptyString) ++
     list_byte_of_string "stdout:" ++
     _indent_or_none (stdout exc) ++
     [LF] ++ list_byte_of_string "stderr:" ++ _indent_or_none (stderr exc) ++ [])).
  assert (Hlit : forall s : string,
            Forall (fun b => (byte_val b < 128)%Z) (list_byte_of_string s) ->
            valid_utf8 (list_byte_of_string s)).
  { intros s. apply valid_utf8_ascii. }
  assert (Hnl : valid_utf8 (list_byte_of_string (String "010" EmptyString))).
  { unfold valid_utf8. vm_compute. eauto. }
  rewrite !list_byte_of_string_app.
  rewrite valid_utf8_app.
  2:{ apply valid_utf8_join; [unfold valid_utf8; vm_compute; eauto|].
      now apply valid_utf8_join. }
  rewrite valid_utf8_app.
  2:{ apply valid_utf8_join; [unfold valid_utf8; vm_compute; eauto|].
      apply valid_utf8_join; [apply valid_utf8_str_of_int|exact Hnl]. }
  rewrite valid_utf8_app.
  2:{ apply valid_utf8_join; [unfold valid_utf8; vm_compute; eauto|].
      apply valid_utf8_join; [apply valid_utf8_str_of_int|exact Hnl]. }
  rewrite valid_utf8_app by (unfold valid_utf8; vm_compute; eauto).
  rewrite app_nil_r.
  assert (Hmid : valid_utf8 ([LF] ++ list_byte_of_string "stderr:")).
  { unfold valid_utf8. vm_compute. eauto. }
  rewrite <- (valid_utf8_indent_or_none (stdout exc)).
  rewrite <- (valid_utf8_indent_or_none (stderr exc)).
  split.
  - intros Hv. assert (Ho : valid_utf8 (_indent_or_none (stdout exc))).
    { apply (valid_utf8_before_LF _ _ Hv). }
    split; [exact Ho|].
    apply (proj1 (valid_utf8_app _ _ Ho)) in Hv.
    rewrite app_assoc in Hv. exact (proj1 (valid_utf8_app _ _ Hmid) Hv).
  - intros [Ho He]. apply valid_utf8_join; [exact Ho|].
    rewrite app_assoc. now apply valid_utf8_join.
Qed.

Lemma CalledProcessError_str_defined_witness :
  CalledProcessError__str__ SimLib.repr
    (CalledProcessError__init__ 1 ["/bin/false"] 0 (Some [xff]) None) = None /\
  is_Some (CalledProcessError__str__ SimLib.repr
             (CalledProcessError__init__ 1 ["/bin/false"] 0 (Some [xc3; xa9]) None)).
Proof.
  split; [reflexivity|].
  apply (proj2 (CalledProcessError_str_defined SimLib.repr
                  (CalledProcessError__init__ 1 ["/bin/false"] 0
                     (Some [xc3; xa9]) None)
                  ltac:(unfold valid_utf8; vm_compute; eauto))).
  split; vm_compute; eauto.
Defined.
